(** * The chat server of [server.py], embedded in Rocq

    The functions of the class [Server] are given in the order in which
    they depend on each other: the storage functions, the senders, the
    asynchronous wrappers around the storage functions, the dispatcher
    ([process_data]) and the connection loop ([client_connected]); then
    the properties of the dispatcher, of the loop, of the storage functions
    and of the backlog query, and last the same properties on a small chat.

    Modelling boundary.
    - One coroutine runs from one suspension point to its end without
      another one being interleaved: a request is handled atomically.
    - A [StreamWriter] is a handle (its object identity).  [write] appends
      to a global record of what was written to which handle; it never
      raises, and what the transport of a lost connection drops is recorded
      all the same.  [drain] raises on a handle whose connection the
      transport has lost ([lost] below) and returns at once otherwise: the
      buffer of a connection that is up is never taken to be full.  [close]
      marks the handle closed.  Which connections are lost is the
      environment's: no function of the server changes it.
    - A [StreamReader] is the list of values its successive [read] calls
      return; when the list is used up the coroutine stays suspended.
    - Python [str] and [bytes] are both [string]: text is carried as its
      encoding, so [encode] and [decode] are the identity.  The values of
      a decoded request are such strings; a document whose values are not
      strings, or are text that [encode] rejects, is outside the model.
    - The two tables are lists of rows in insertion order and a [datetime]
      is an instant on the integer line, whatever text the engine keeps
      for it.  The storage engine can fail an operation (see [engine]
      below); an operation that fails changes no table.  SQL leaves open
      in which order [ORDER BY send_date] returns the rows of one date;
      [insert_by_date] keeps them in the order they came in, and no
      property below depends on it.
    - [json.loads], [datetime.now], the rendering of a [datetime] and the
      constants of [config.py] are the fields of the class [Env]. *)

From Stdlib Require Import String Ascii List ZArith Lia Bool Arith DecimalString.
From Stdlib Require Import Sorted Permutation.
Import ListNotations.

Set Implicit Arguments.
Local Open Scope string_scope.
Local Open Scope list_scope.

Notation "a +++ b" := (String.append a b) (at level 60, right associativity).

(** The line feed each outgoing line ends in, and the empty text. *)
Definition LF : string := String "010"%char EmptyString.
Definition empty_str : string := EmptyString.

(** * Data *)

Definition handle := nat.        (* a StreamWriter, by identity *)
Definition datetime := Z.        (* an instant *)

(** structs.py: [RequestData], with the defaults of its fields. *)
Record RequestData := mkRequest {
  username : string;
  target : string;
  receiver : string;
  message : string
}.

Definition default_request (u : string) : RequestData :=
  mkRequest u "all" empty_str empty_str.

(** What [json.loads] gives for a request: a [dict] from [str] to [str],
    kept in insertion order. *)
Definition dict := list (string * string).

(** structs.py: [RequestData.to_json], that is [asdict]. *)
Definition to_json (r : RequestData) : dict :=
  [ ("username", username r); ("target", target r);
    ("receiver", receiver r); ("message", message r) ].

(** A row of [main.registrations] and a row of [main.messages]. *)
Record Registration := mkRegistration {
  r_username : string;
  r_reg_date : datetime;
  r_count_messages : Z
}.

Record Message := mkMessage {
  m_message : string;
  m_sender : string;
  m_receiver : string;
  m_send_date : datetime
}.

(** What the backlog query selects: [(message, sender, send_date)]. *)
Definition row := (string * string * datetime)%type.

(** The exceptions: what decoding the bytes and indexing the result can
    raise, what the storage engine raises, and what [drain] raises on a
    connection that is lost. *)
Inductive exn :=
| JSONDecodeError
| UnicodeDecodeError
| TypeError
| KeyError (key : string)
| DatabaseError (er : string)
| ConnectionResetError
| BrokenPipeError.

Definition str_exn (e : exn) : string :=
  match e with
  | JSONDecodeError => "Expecting value"
  | UnicodeDecodeError => "invalid start byte"
  | TypeError => "TypeError"
  | KeyError k => k
  | DatabaseError er => er
  | ConnectionResetError => "Connection lost"
  | BrokenPipeError => "[Errno 32] Broken pipe"
  end.

Inductive level := INFO | ERROR.

(** What can go wrong in the storage engine during one operation: the
    database cannot be opened, or the statement fails once it is. *)
Inductive fault :=
| Unavailable (er : string)
| QueryFails (er : string).

Definition fault_text (f : fault) : string :=
  match f with Unavailable er => er | QueryFails er => er end.

(** An open connection, by what its statement will raise, if anything. *)
Definition connection := option string.

(** The server object together with the world it acts on.  [engine] says
    what the storage engine does in the next operations, one entry for each
    [connect]: [None] for an operation that goes through, [Some f] for one
    that meets the fault [f]; an empty list is an engine that works from
    now on.  [lost] holds the connections the transport has lost, each with
    the exception [drain] raises on it: the one the connection was lost
    with, or [ConnectionResetError]. *)
Record State := mkState {
  users : list (string * handle);      (* self.users *)
  registrations : list Registration;   (* main.registrations *)
  messages : list Message;             (* main.messages *)
  sent : list (handle * string);       (* every write, oldest first *)
  closed : list handle;                (* handles closed by the server *)
  log : list (level * string);         (* logger output *)
  ticks : nat;                         (* calls of datetime.now so far *)
  engine : list (option fault);
  lost : list (handle * exn)           (* connections that are gone *)
}.

Definition init_state : State := mkState [] [] [] [] [] [] 0 [] [].

Definition set_users (v : list (string * handle)) (s : State) : State :=
  mkState v (registrations s) (messages s) (sent s) (closed s) (log s)
          (ticks s) (engine s) (lost s).
Definition set_registrations (v : list Registration) (s : State) : State :=
  mkState (users s) v (messages s) (sent s) (closed s) (log s)
          (ticks s) (engine s) (lost s).
Definition set_messages (v : list Message) (s : State) : State :=
  mkState (users s) (registrations s) v (sent s) (closed s) (log s)
          (ticks s) (engine s) (lost s).
Definition set_sent (v : list (handle * string)) (s : State) : State :=
  mkState (users s) (registrations s) (messages s) v (closed s) (log s)
          (ticks s) (engine s) (lost s).
Definition set_closed (v : list handle) (s : State) : State :=
  mkState (users s) (registrations s) (messages s) (sent s) v (log s)
          (ticks s) (engine s) (lost s).
Definition set_log (v : list (level * string)) (s : State) : State :=
  mkState (users s) (registrations s) (messages s) (sent s) (closed s) v
          (ticks s) (engine s) (lost s).
Definition set_ticks (v : nat) (s : State) : State :=
  mkState (users s) (registrations s) (messages s) (sent s) (closed s)
          (log s) v (engine s) (lost s).
Definition set_engine (v : list (option fault)) (s : State) : State :=
  mkState (users s) (registrations s) (messages s) (sent s) (closed s)
          (log s) (ticks s) v (lost s).
Definition set_lost (v : list (handle * exn)) (s : State) : State :=
  mkState (users s) (registrations s) (messages s) (sent s) (closed s)
          (log s) (ticks s) (engine s) v.

(** * The monad of the coroutines

    A computation ends with a value, with an exception, or stays suspended
    on a read that never returns. *)

Inductive Res (A : Type) :=
| Ok (a : A)
| Raise (e : exn)
| Await.
Arguments Raise {A} e.
Arguments Await {A}.

Definition M (A : Type) := State -> Res A * State.

Definition ret {A} (a : A) : M A := fun s => (Ok a, s).

Definition bind {A B} (m : M A) (k : A -> M B) : M B :=
  fun s =>
    match m s with
    | (Ok a, s') => k a s'
    | (Raise e, s') => (Raise e, s')
    | (Await, s') => (Await, s')
    end.

Definition raise {A} (e : exn) : M A := fun s => (Raise e, s).
Definition await_forever {A} : M A := fun s => (Await, s).
Definition get : M State := fun s => (Ok s, s).
Definition modify (f : State -> State) : M unit := fun s => (Ok tt, f s).

Notation "x <- m ;; k" := (bind m (fun x => k))
  (at level 61, m at next level, right associativity).
Notation "m ;; k" := (bind m (fun _ => k))
  (at level 61, right associativity).

(** [try: body except Exception as er: handler er]. *)
Definition try_except {A} (body : M A) (handler : exn -> M A) : M A :=
  fun s =>
    match body s with
    | (Raise e, s') => handler e s'
    | r => r
    end.

(** [for x in xs: body x]. *)
Fixpoint for_each {A} (xs : list A) (body : A -> M unit) : M unit :=
  match xs with
  | [] => ret tt
  | x :: xs' => body x ;; for_each xs' body
  end.

(** * Dictionaries *)

(** The value a key has in the decoded request, and [d[k]]. *)
Definition field (d : dict) (k : string) : option string :=
  option_map snd (find (fun kv => String.eqb (fst kv) k) d).

Definition getitem (d : dict) (k : string) : M string :=
  match field d k with
  | Some v => ret v
  | None => raise (KeyError k)
  end.

(** [self.users[k] = v]: an existing key keeps its place. *)
Fixpoint dict_set (d : list (string * handle)) (k : string) (v : handle)
  : list (string * handle) :=
  match d with
  | [] => [(k, v)]
  | (k', v') :: d' =>
      if String.eqb k' k then (k, v) :: d' else (k', v') :: dict_set d' k v
  end.

Definition dict_get (d : list (string * handle)) (k : string) : option handle :=
  option_map snd (find (fun kv => String.eqb (fst kv) k) d).

Definition values (d : list (string * handle)) : list handle := map snd d.
Definition keys (d : list (string * handle)) : list string := map fst d.

(** A Python dict holds a key once. *)
Definition dict_wf (d : list (string * handle)) : Prop := NoDup (keys d).

(** * Primitives of the world *)

Definition logger_info (line : string) : M unit :=
  modify (fun s => set_log (log s ++ [(INFO, line)]) s).
Definition logger_error (line : string) : M unit :=
  modify (fun s => set_log (log s ++ [(ERROR, line)]) s).

(** [w.write(data)] and [w.close()]. *)
Definition write (w : handle) (data : string) : M unit :=
  modify (fun s => set_sent (sent s ++ [(w, data)]) s).
Definition close (w : handle) : M unit :=
  modify (fun s => set_closed (closed s ++ [w]) s).

(** [await w.drain()]: the exception the transport holds for a connection
    it has lost, nothing otherwise. *)
Definition transport_error (w : handle) (s : State) : option exn :=
  option_map snd (find (fun x => Nat.eqb (fst x) w) (lost s)).

Definition drain (w : handle) : M unit :=
  fun s =>
    match transport_error w s with
    | Some e => (Raise e, s)
    | None => (Ok tt, s)
    end.

(** [connect(DB_NAME, ...)]: asks the engine. *)
Definition connect : M connection :=
  fun s =>
    match engine s with
    | [] => (Ok None, s)
    | None :: rest => (Ok None, set_engine rest s)
    | Some (Unavailable er) :: rest =>
        (Raise (DatabaseError er), set_engine rest s)
    | Some (QueryFails er) :: rest => (Ok (Some er), set_engine rest s)
    end.

(** [cursor.execute(...)] of a statement that writes, followed by
    [connection.commit()]: the statement either raises and changes
    nothing, or changes the tables. *)
Definition execute (c : connection) (statement : State -> exn + State)
  : M unit :=
  fun s =>
    match c with
    | Some er => (Raise (DatabaseError er), s)
    | None =>
        match statement s with
        | inl e => (Raise e, s)
        | inr s' => (Ok tt, s')
        end
    end.

(** [cursor.execute(...).fetchall()] and [.fetchone()] of a query. *)
Definition fetch {A} (c : connection) (query : State -> A) : M A :=
  fun s =>
    match c with
    | Some er => (Raise (DatabaseError er), s)
    | None => (Ok (query s), s)
    end.

(** What each handle was sent, in order. *)
Definition outbox (w : handle) (s : State) : list string :=
  map snd (filter (fun x => Nat.eqb (fst x) w) (sent s)).

(** * The relational part of the queries *)

Definition row_of (m : Message) : row :=
  (m_message m, m_sender m, m_send_date m).
Definition row_date (r : row) : datetime := snd r.

Definition row_eqb (a b : row) : bool :=
  String.eqb (fst (fst a)) (fst (fst b))
  && String.eqb (snd (fst a)) (snd (fst b))
  && Z.eqb (snd a) (snd b).

(** [ORDER BY send_date]: ascending; rows of one date are kept in the
    order they came in (SQL fixes no order among them). *)
Fixpoint insert_by_date (r : row) (rs : list row) : list row :=
  match rs with
  | [] => [r]
  | r' :: rs' =>
      if (row_date r <=? row_date r')%Z then r :: rs
      else r' :: insert_by_date r rs'
  end.

Definition order_by_send_date (rs : list row) : list row :=
  fold_right insert_by_date [] rs.

(** [LIMIT k]: a negative [k] is no limit. *)
Definition limit (k : Z) (rs : list row) : list row :=
  if (k <? 0)%Z then rs else firstn (Z.to_nat k) rs.

(** [UNION]: the rows of both operands, each once. *)
Fixpoint distinct (rs : list row) : list row :=
  match rs with
  | [] => []
  | r :: rs' => r :: filter (fun x => negb (row_eqb x r)) (distinct rs')
  end.

Definition union (a b : list row) : list row := distinct (a ++ b).

(** [WHERE receiver in ('all', ?)]. *)
Definition addressed_to (receiver : string) (m : Message) : bool :=
  String.eqb (m_receiver m) "all" || String.eqb (m_receiver m) receiver.

(** The statement of [__get_available_messages] on a table. *)
Definition get_message_query (k : Z) (receiver : string) (since : datetime)
           (table : list Message) : list row :=
  order_by_send_date
    (union
       (order_by_send_date
          (map row_of
             (filter (fun m => addressed_to receiver m
                               && (since <=? m_send_date m)%Z) table)))
       (limit k
          (order_by_send_date
             (map row_of
                (filter (fun m => addressed_to receiver m
                                  && (m_send_date m <=? since)%Z) table))))).

(** Ascending by [send_date]. *)
Definition date_le (a b : row) : Prop := (row_date a <= row_date b)%Z.

(** The spec's words for what precedes the registration instant in the
    backlog: of the rows addressed to the user and sent before [since],
    in ascending order, the trailing [k]. *)
Definition spec_trailing (k : nat) (receiver : string) (since : datetime)
           (table : list Message) : list row :=
  let before :=
    order_by_send_date
      (map row_of
         (filter (fun m => addressed_to receiver m
                           && (m_send_date m <? since)%Z) table)) in
  skipn (length before - k) before.

(** How many messages addressed to the user and sent at or before [since]
    are older than the instant [d]. *)
Definition older_context (receiver : string) (since d : datetime)
           (table : list Message) : nat :=
  length
    (filter (fun m => (m_send_date m <? d)%Z)
            (filter (fun m => addressed_to receiver m
                              && (m_send_date m <=? since)%Z) table)).

(** Modelled from the spec: the schema of [main.registrations], which no
    source file declares.  The spec gives [registrations(username UNIQUE,
    reg_date, count_messages)] and says that a user is inserted with a
    zero count, so the column [count_messages] defaults to zero and a
    second row of one username is refused. *)
Definition count_messages_default : Z := 0.
Definition unique_violation : string :=
  "UNIQUE constraint failed: registrations.username".

Definition has_username (u : string) (r : Registration) : bool :=
  String.eqb (r_username r) u.

(** [timedelta(minutes=n)], instants counted in microseconds. *)
Definition minutes (n : Z) : Z := (n * 60000000)%Z.

(** * server.py *)

(** What the server takes from outside its own file. *)
Class Env := {
  (** [json.loads(data.decode())]: the decoded request or the exception. *)
  json_loads : string -> exn + dict;
  (** The instant the n-th call of [datetime.now(timezone(TZ))] returns. *)
  clock : nat -> datetime;
  (** [str] of a [datetime], as an f-string renders it. *)
  str_datetime : datetime -> string;
  (** [writer.get_extra_info('peername')], rendered. *)
  peername : handle -> string;
  (** config.py *)
  LIMIT_SHOW_MESSAGES : Z;
  LIFETIME_MESSAGES : Z;
  LIMIT_MESSAGES : Z
}.

Section Server.

Context {env : Env}.

Definition now : M datetime :=
  fun s => (Ok (clock (ticks s)), set_ticks (S (ticks s)) s).

(** ** The storage functions

    Each one is [try: connect, execute, commit  except Exception as er:
    logger.error(...)  finally: close]; closing the connection changes
    nothing of the state. *)

Definition __create_record_in_db (message sender receiver : string)
  : M unit :=
  let receiver := if String.eqb receiver empty_str then "all" else receiver in
  try_except
    (connection <- connect ;;
     t <- now ;;
     execute connection (fun s =>
       inr (set_messages
              (messages s ++ [mkMessage message sender receiver t]) s)))
    (fun er => logger_error ("DB error - record message: " +++ str_exn er)).

Definition __get_available_messages (receiver : string) (reg_date : datetime)
  : M (list row) :=
  let messages0 : list row := [] in
  try_except
    (connection <- connect ;;
     fetch connection (fun s =>
       get_message_query LIMIT_SHOW_MESSAGES receiver reg_date (messages s)))
    (fun er =>
       logger_error ("DB error - get messages: " +++ str_exn er) ;;
       ret messages0).

Definition __create_user_db_record (user : string) : M unit :=
  try_except
    (connection <- connect ;;
     t <- now ;;
     execute connection (fun s =>
       if existsb (has_username user) (registrations s)
       then inl (DatabaseError unique_violation)
       else inr (set_registrations
                   (registrations s
                    ++ [mkRegistration user t count_messages_default]) s)))
    (fun er => logger_error ("DB error - registration: " +++ str_exn er)).

Definition __get_user (username : string) : M (option Registration) :=
  let user0 : option Registration := None in
  try_except
    (connection <- connect ;;
     fetch connection (fun s =>
       find (has_username username) (registrations s)))
    (fun er =>
       logger_error ("DB error - get user: " +++ str_exn er) ;;
       ret user0).

Definition __delete_old_messages : M unit :=
  t <- now ;;
  let deadline_date := (t - minutes LIFETIME_MESSAGES)%Z in
  try_except
    (connection <- connect ;;
     execute connection (fun s =>
       inr (set_messages
              (filter (fun m => negb (m_send_date m <? deadline_date)%Z)
                      (messages s)) s)))
    (fun er => logger_error ("DB error - deleting messages: " +++ str_exn er)).

Definition __append_count_message (username : string) (count : Z)
  : M unit :=
  try_except
    (connection <- connect ;;
     execute connection (fun s =>
       inr (set_registrations
              (map (fun r =>
                      if has_username username r
                      then mkRegistration (r_username r) (r_reg_date r) count
                      else r)
                   (registrations s)) s)))
    (fun er =>
       logger_error ("DB error - updating count messages: " +++ str_exn er)).

Definition __reset_limits : M unit :=
  try_except
    (connection <- connect ;;
     execute connection (fun s =>
       inr (set_registrations
              (map (fun r => mkRegistration (r_username r) (r_reg_date r) 0)
                   (registrations s)) s)))
    (fun er => logger_error ("DB error - reset limits: " +++ str_exn er)).

(** ** The senders *)

Definition chat_line (t : datetime) (sender message : string) : string :=
  str_datetime t +++ " " +++ sender +++ ": " +++ message +++ LF.

Definition hello_line (sender : string) : string :=
  "New guest in the chat! - " +++ sender +++ LF.

Definition limit_line : string :=
  "You have reached the limit for sending messages "
  +++ "to the general chat" +++ LF.

(** [send_to_all] first decodes a [message] that is [bytes]; the message of
    a decoded request is a [str], and the two are one type here. *)
Definition send_to_all (self_writer : handle) (sender message : string)
  : M unit :=
  s <- get ;;
  for_each (values (users s)) (fun w =>
    if negb (Nat.eqb w self_writer) then
      t <- now ;;
      write w (chat_line t sender message) ;;
      drain w
    else ret tt).

Definition send_to_one (sender message receiver : string) : M unit :=
  s <- get ;;
  for_each (users s) (fun item =>
    let '(username, w) := item in
    if String.eqb username receiver then
      t <- now ;;
      write w (chat_line t sender message) ;;
      drain w
    else ret tt).

Definition send_hello (self_writer : handle) (sender : string) : M unit :=
  s <- get ;;
  for_each (values (users s)) (fun w =>
    if negb (Nat.eqb w self_writer) then
      write w (hello_line sender) ;;
      drain w
    else ret tt).

Definition send_limit_warning (writer : handle) : M unit :=
  write writer limit_line ;;
  drain writer.

(** ** The wrappers that hand a storage function to the executor *)

Definition send_available_messages (user : string) (writer : handle)
           (reg_date : datetime) : M unit :=
  messages <- __get_available_messages user reg_date ;;
  for_each messages (fun m =>
    let '(m0, m1, m2) := m in
    let message := str_datetime m2 +++ " " +++ m1 +++ ": " +++ m0 +++ LF in
    write writer message ;;
    drain writer).

Definition store_message (data : dict) : M unit :=
  message <- getitem data "message" ;;
  sender <- getitem data "username" ;;
  receiver <- getitem data "receiver" ;;
  __create_record_in_db message sender receiver.

Definition reg_user (user : string) : M unit :=
  __create_user_db_record user.

Definition get_user (username : string) : M (option Registration) :=
  __get_user username.

Definition append_count_message (username : string) (count_messages : Z)
  : M unit :=
  let count_messages := (count_messages + 1)%Z in
  __append_count_message username count_messages.

(** ** The dispatcher *)

Definition process_data (data : string) (writer : handle) : M unit :=
  data <- (match json_loads data with
           | inl e => raise e
           | inr d => ret d
           end) ;;
  target <- getitem data "target" ;;
  user <- getitem data "username" ;;
  let count_messages := 0%Z in
  (if negb (String.eqb target "hello") then store_message data
   else ret tt) ;;
  exist_user <- get_user user ;;
  found <- (match exist_user with
            | None =>
                reg_user user ;;
                reg_date <- now ;;
                ret (reg_date, count_messages)
            | Some exist_user =>
                ret (r_reg_date exist_user, r_count_messages exist_user)
            end) ;;
  let '(reg_date, count_messages) := found in
  if String.eqb target "hello" then
    send_available_messages user writer reg_date ;;
    modify (fun s => set_users (dict_set (users s) user writer) s) ;;
    send_hello writer user
  else if String.eqb target "all" then
    if (LIMIT_MESSAGES <=? count_messages)%Z then
      send_limit_warning writer
    else
      message <- getitem data "message" ;;
      send_to_all writer user message ;;
      append_count_message user count_messages
  else if String.eqb target "one_to_one" then
    message <- getitem data "message" ;;
    receiver <- getitem data "receiver" ;;
    send_to_one user message receiver
  else ret tt.

(** ** The connection loop *)

(** [while True: data = await reader.read(1024); ...], over what the
    reads return. *)
Fixpoint serve (reader : list string) (writer : handle) : M unit :=
  match reader with
  | [] => await_forever
  | data :: reader' =>
      process_data data writer ;;
      if String.eqb data empty_str then ret tt
      else serve reader' writer
  end.

Definition client_connected (reader : list string) (writer : handle)
  : M unit :=
  let address := peername writer in
  logger_info ("Start serving " +++ address) ;;
  serve reader writer ;;
  logger_info ("Stop serving " +++ address) ;;
  close writer.

(** ** The vocabulary of the properties *)

(** The bytes [data] decode to a request with the four fields of [r],
    each a string that encodes. *)
Definition decodes_to (data : string) (r : RequestData) : Prop :=
  exists d,
    json_loads data = inr d
    /\ field d "username" = Some (username r)
    /\ field d "target" = Some (target r)
    /\ field d "receiver" = Some (receiver r)
    /\ field d "message" = Some (message r).

(** The row [store_message] writes for a request at instant [t]. *)
Definition stored_message (r : RequestData) (t : datetime) : Message :=
  mkMessage (message r) (username r)
            (if String.eqb (receiver r) empty_str then "all" else receiver r)
            t.

(** The lines a loop over [ws] writes when it reads the clock once per
    recipient, starting at reading [n]. *)
Fixpoint stamped (ws : list handle) (n : nat) (line : datetime -> string)
  : list (handle * string) :=
  match ws with
  | [] => []
  | w :: ws' => (w, line (clock n)) :: stamped ws' (S n) line
  end.

(** The handles of the registry other than [w]. *)
Definition others (w : handle) (d : list (string * handle)) : list handle :=
  filter (fun x => negb (Nat.eqb x w)) (values d).

(** Two states agree on the registry, on what was sent and closed, and on
    the connections that are lost. *)
Definition same_io (s s' : State) : Prop :=
  users s' = users s /\ sent s' = sent s /\ closed s' = closed s
  /\ lost s' = lost s.

(** The connection of the handle is up. *)
Definition live (s : State) (w : handle) : Prop := transport_error w s = None.

(** Of the handles a loop writes to and drains in turn, those it gets to:
    all of them up to and including the first whose connection is lost. *)
Fixpoint reached (s : State) (ws : list handle) : list handle :=
  match ws with
  | [] => []
  | w :: ws' =>
      match transport_error w s with
      | Some _ => [w]
      | None => w :: reached s ws'
      end
  end.

(** How such a loop ends: with the exception of the first lost connection,
    or normally when there is none. *)
Fixpoint ending (s : State) (ws : list handle) : Res unit :=
  match ws with
  | [] => Ok tt
  | w :: ws' =>
      match transport_error w s with
      | Some e => Raise e
      | None => ending s ws'
      end
  end.

(** Two states agree on both tables. *)
Definition same_tables (s s' : State) : Prop :=
  registrations s' = registrations s /\ messages s' = messages s.

(** The state a storage function leaves when its operation meets the
    fault [f]: the error is logged under the function's label and no table
    changes. *)
Definition refused (label : string) (f : fault) (rest : list (option fault))
           (s : State) : State :=
  set_log (log s ++ [(ERROR, label +++ fault_text f)]) (set_engine rest s).

(** What a function that reads the clock between [connect] and its
    statement leaves of the clock: one more reading when the fault is the
    statement's. *)
Definition clock_read (f : fault) (s : State) : State :=
  match f with
  | Unavailable _ => s
  | QueryFails _ => set_ticks (S (ticks s)) s
  end.

(** A computation that keeps an invariant of the state, however it ends. *)
Definition keeps {A} (I : State -> Prop) (m : M A) : Prop :=
  forall s, I s -> I (snd (m s)).

(** The backlog goes to one handle: when its connection is lost the loop
    stops after the first line. *)
Definition backlog_reached (s : State) (w : handle) (rows : list row)
  : list row :=
  match transport_error w s with
  | Some _ => firstn 1 rows
  | None => rows
  end.

Definition backlog_ending (s : State) (w : handle) (rows : list row)
  : Res unit :=
  match rows, transport_error w s with
  | _ :: _, Some e => Raise e
  | _, _ => Ok tt
  end.

(** An invariant that speaks of the registry, of the closed handles and
    of the lost connections only. *)
Definition io_stable (I : State -> Prop) : Prop :=
  forall s s', users s' = users s -> closed s' = closed s ->
               lost s' = lost s -> I s -> I s'.

(** The state after a sequence of requests, each on its connection. *)
Definition run_requests (requests : list (string * handle)) (s : State)
  : State :=
  fold_left (fun s rq => snd (process_data (fst rq) (snd rq) s)) requests s.

(** The line of the backlog for a row. *)
Definition backlog_line (m : row) : string :=
  let '(m0, m1, m2) := m in
  str_datetime m2 +++ " " +++ m1 +++ ": " +++ m0 +++ LF.

(** ** The two maintenance tasks and the server as a whole *)

(** [await asyncio.sleep(seconds)]: time passes, nothing else changes. *)
Definition sleep (seconds : Z) : M unit := ret tt.

(** [while True: run __delete_old_messages; sleep 60], cut after
    [rounds] rounds: the task is then suspended in the loop. *)
Fixpoint delete_old_messages (rounds : nat) : M unit :=
  match rounds with
  | 0 => await_forever
  | S rounds' =>
      __delete_old_messages ;;
      sleep 60 ;;
      delete_old_messages rounds'
  end.

(** [while True: run __reset_limits; sleep 60 * UPDATE_PERIOD], with the
    constant of config.py as a parameter. *)
Fixpoint reset_limit_messages (UPDATE_PERIOD : Z) (rounds : nat) : M unit :=
  match rounds with
  | 0 => await_forever
  | S rounds' =>
      __reset_limits ;;
      sleep (60 * UPDATE_PERIOD) ;;
      reset_limit_messages UPDATE_PERIOD rounds'
  end.

(** What the three tasks of [listen] do, one step at a time, and what
    happens to them: a request is served on a connection, one of the
    maintenance tasks runs a round, or the transport loses a connection. *)
Inductive event :=
| Request (data : string) (writer : handle)
| ExpiryRound
| ResetRound
| ConnectionLost (w : handle) (e : exn).

Definition step (e : event) (s : State) : State :=
  match e with
  | Request data writer => snd (process_data data writer s)
  | ExpiryRound => snd (__delete_old_messages s)
  | ResetRound => snd (__reset_limits s)
  | ConnectionLost w e => set_lost (lost s ++ [(w, e)]) s
  end.

Definition run_events (events : list event) (s : State) : State :=
  fold_left (fun s e => step e s) events s.

(** The key of the decoded request that [process_data] misses first, in
    the order in which it reads them: 'target' and 'username' always,
    'message' and 'receiver' when the target is not 'hello'. *)
Definition first_missing (d : dict) : option string :=
  match field d "target", field d "username" with
  | None, _ => Some "target"
  | Some _, None => Some "username"
  | Some target, Some _ =>
      if String.eqb target "hello" then None
      else
        match field d "message", field d "receiver" with
        | None, _ => Some "message"
        | Some _, None => Some "receiver"
        | Some _, Some _ => None
        end
  end.

(** An invariant that speaks of the two tables only. *)
Definition table_stable (I : State -> Prop) : Prop :=
  forall s s', registrations s' = registrations s ->
               messages s' = messages s -> I s -> I s'.

(** The count and the identity of a row of [main.registrations]. *)
Definition set_count (c : Z) (r : Registration) : Registration :=
  mkRegistration (r_username r) (r_reg_date r) c.
Definition identity (r : Registration) : string * datetime :=
  (r_username r, r_reg_date r).

(** Every stored count lies between zero and the limit. *)
Definition counts_bounded (s : State) : Prop :=
  Forall (fun r => (0 <= r_count_messages r <= Z.max 0 LIMIT_MESSAGES)%Z)
         (registrations s).

End Server.

(** * A sample environment

    One instance of [Env], to run the server on concrete requests: a
    decoder for the documents the client of structs.py sends when no field
    needs an escape (an object whose members are strings), a clock that
    advances by one at each reading, and small limits. *)

Module Sample.

Definition quote : ascii := "034"%char.
Definition backslash : ascii := "092"%char.

Definition is_space (c : ascii) : bool :=
  Ascii.eqb c " "%char || Ascii.eqb c "009"%char
  || Ascii.eqb c "010"%char || Ascii.eqb c "013"%char.

Definition is_control (c : ascii) : bool := Nat.ltb (nat_of_ascii c) 32.

Definition snoc (s : string) (c : ascii) : string :=
  s +++ String c EmptyString.

(** Where the decoder stands in the document. *)
Inductive place :=
| AtStart
| AfterOpen
| InKey (acc : string)
| AfterKey (k : string)
| BeforeValue (k : string)
| InValue (k acc : string)
| AfterValue
| AfterComma
| AtEnd
| Failed.

(** A member that comes twice keeps its last value. *)
Fixpoint member_set (d : dict) (k v : string) : dict :=
  match d with
  | [] => [(k, v)]
  | (k', v') :: d' =>
      if String.eqb k' k then (k, v) :: d' else (k', v') :: member_set d' k v
  end.

Definition step (p : place * dict) (c : ascii) : place * dict :=
  let '(pl, d) := p in
  match pl with
  | AtStart =>
      if is_space c then (AtStart, d)
      else if Ascii.eqb c "{"%char then (AfterOpen, d) else (Failed, d)
  | AfterOpen =>
      if is_space c then (AfterOpen, d)
      else if Ascii.eqb c quote then (InKey EmptyString, d)
      else if Ascii.eqb c "}"%char then (AtEnd, d) else (Failed, d)
  | InKey acc =>
      if Ascii.eqb c quote then (AfterKey acc, d)
      else if Ascii.eqb c backslash || is_control c then (Failed, d)
      else (InKey (snoc acc c), d)
  | AfterKey k =>
      if is_space c then (AfterKey k, d)
      else if Ascii.eqb c ":"%char then (BeforeValue k, d) else (Failed, d)
  | BeforeValue k =>
      if is_space c then (BeforeValue k, d)
      else if Ascii.eqb c quote then (InValue k EmptyString, d)
      else (Failed, d)
  | InValue k acc =>
      if Ascii.eqb c quote then (AfterValue, member_set d k acc)
      else if Ascii.eqb c backslash || is_control c then (Failed, d)
      else (InValue k (snoc acc c), d)
  | AfterValue =>
      if is_space c then (AfterValue, d)
      else if Ascii.eqb c ","%char then (AfterComma, d)
      else if Ascii.eqb c "}"%char then (AtEnd, d) else (Failed, d)
  | AfterComma =>
      if is_space c then (AfterComma, d)
      else if Ascii.eqb c quote then (InKey EmptyString, d) else (Failed, d)
  | AtEnd => if is_space c then (AtEnd, d) else (Failed, d)
  | Failed => (Failed, d)
  end.

Definition loads (data : string) : exn + dict :=
  match fold_left step (list_ascii_of_string data) (AtStart, []) with
  | (AtEnd, d) => inr d
  | _ => inl JSONDecodeError
  end.

(** structs.py: [to_string_json], for fields that need no escape. *)
Definition quoted (s : string) : string :=
  String quote s +++ String quote EmptyString.

Definition to_string_json (r : RequestData) : string :=
  "{" +++ quoted "username" +++ ": " +++ quoted (username r) +++ ", "
  +++ quoted "target" +++ ": " +++ quoted (target r) +++ ", "
  +++ quoted "receiver" +++ ": " +++ quoted (receiver r) +++ ", "
  +++ quoted "message" +++ ": " +++ quoted (message r) +++ "}".

Definition show (t : datetime) : string :=
  NilZero.string_of_int (Z.to_int t).

#[export] Instance env : Env := {
  json_loads := loads;
  clock := fun n => (1000 + Z.of_nat n)%Z;
  str_datetime := show;
  peername := fun w => "peer" +++ NilZero.string_of_uint (Nat.to_uint w);
  LIMIT_SHOW_MESSAGES := 2;
  LIFETIME_MESSAGES := 60;
  LIMIT_MESSAGES := 2
}.

(** Two connections and the requests used below. *)
Definition alice_w : handle := 1.
Definition bob_w : handle := 2.
Definition carol_w : handle := 3.

Definition hello_of (u : string) : RequestData :=
  mkRequest u "hello" empty_str empty_str.
Definition all_of (u m : string) : RequestData :=
  mkRequest u "all" empty_str m.
Definition one_of (u r m : string) : RequestData :=
  mkRequest u "one_to_one" r m.

(** A chat in progress: three users on three connections, bob at the
    limit of two messages and carol one below it, and three messages to
    'all' in the table, all sent before anybody's registration instant. *)
Definition table : list Message :=
  [ mkMessage "one" "alice" "all" 1%Z;
    mkMessage "two" "alice" "all" 2%Z;
    mkMessage "three" "alice" "all" 3%Z ].

Definition chat : State :=
  mkState [("alice", alice_w); ("bob", bob_w); ("carol", carol_w)]
          [ mkRegistration "alice" 10%Z 0%Z;
            mkRegistration "bob" 10%Z 2%Z;
            mkRegistration "carol" 10%Z 1%Z ]
          table [] [] [] 0 [] [].

(** The same chat on an engine that fails the next three operations. *)
Definition unavailable : fault := Unavailable "unable to open database file".
Definition locked : fault := QueryFails "database is locked".
Definition chat_down : State :=
  set_engine [Some unavailable; Some locked; Some unavailable] chat.

Definition dave_w : handle := 4.

(** A character that [json.dumps] writes as it is: printable ASCII other
    than the quote and the backslash. *)
Definition plain_char (c : ascii) : bool :=
  negb (Ascii.eqb c quote) && negb (Ascii.eqb c backslash)
  && negb (is_control c) && Nat.ltb (nat_of_ascii c) 127.

Definition plain (s : string) : bool :=
  forallb plain_char (list_ascii_of_string s).

Definition plain_request (r : RequestData) : bool :=
  plain (username r) && plain (target r)
  && plain (receiver r) && plain (message r).

(** A document with the two keys a hello needs, and one without target. *)
Definition two_keys (u t : string) : string :=
  "{" +++ quoted "username" +++ ": " +++ quoted u +++ ", "
  +++ quoted "target" +++ ": " +++ quoted t +++ "}".

Definition one_key (u : string) : string :=
  "{" +++ quoted "username" +++ ": " +++ quoted u +++ "}".

(** alice on one connection under two usernames, and bob. *)
Definition chat_twice : State :=
  mkState [("alice", alice_w); ("ally", alice_w); ("bob", bob_w)]
          [ mkRegistration "alice" 10%Z 0%Z;
            mkRegistration "ally" 10%Z 0%Z;
            mkRegistration "bob" 10%Z 0%Z ]
          [] [] [] [] 0 [] [].

(** The chat after the transport has lost alice's connection. *)
Definition chat_stale : State :=
  set_lost [(alice_w, ConnectionResetError)] chat.

End Sample.

(** * Properties *)

Unset Implicit Arguments.

Section Properties.

Context {env : Env}.

(** ** Running the monad *)

Lemma bind_ok {A B} {m : M A} {k : A -> M B} {s a s'} :
  m s = (Ok a, s') -> bind m k s = k a s'.
Proof. intros H. unfold bind. now rewrite H. Qed.

Lemma getitem_ok d k v s :
  field d k = Some v -> getitem d k s = (Ok v, s).
Proof. intros H. unfold getitem. now rewrite H. Qed.

(** ** The storage functions on an engine that works *)

Lemma connect_works s : engine s = [] -> connect s = (Ok None, s).
Proof. intros H. unfold connect. now rewrite H. Qed.

Lemma create_record_works m u r s :
  engine s = [] ->
  __create_record_in_db m u r s
  = (Ok tt,
     set_messages
       (messages s
        ++ [mkMessage m u (if String.eqb r empty_str then "all" else r)
                      (clock (ticks s))])
       (set_ticks (S (ticks s)) s)).
Proof.
  intros H. unfold __create_record_in_db, try_except.
  rewrite (bind_ok (connect_works s H)). reflexivity.
Qed.

Lemma get_user_works u s :
  engine s = [] ->
  get_user u s = (Ok (find (has_username u) (registrations s)), s).
Proof.
  intros H. unfold get_user, __get_user, try_except.
  rewrite (bind_ok (connect_works s H)). reflexivity.
Qed.

Lemma reg_user_works u s :
  engine s = [] ->
  find (has_username u) (registrations s) = None ->
  reg_user u s
  = (Ok tt,
     set_registrations
       (registrations s
        ++ [mkRegistration u (clock (ticks s)) count_messages_default])
       (set_ticks (S (ticks s)) s)).
Proof.
  intros H Hnone. unfold reg_user, __create_user_db_record, try_except.
  rewrite (bind_ok (connect_works s H)).
  unfold bind, now, execute. cbn [registrations set_ticks].
  assert (E : existsb (has_username u) (registrations s) = false).
  { destruct (existsb (has_username u) (registrations s)) eqn:Ex; [|reflexivity].
    apply existsb_exists in Ex. destruct Ex as [x [Hin Hx]].
    exfalso. eapply find_none in Hnone; eauto. congruence. }
  rewrite E. reflexivity.
Qed.

Lemma append_count_works u c s :
  engine s = [] ->
  append_count_message u c s
  = (Ok tt,
     set_registrations
       (map (fun r => if has_username u r
                      then mkRegistration (r_username r) (r_reg_date r) (c + 1)
                      else r)
            (registrations s)) s).
Proof.
  intros H. unfold append_count_message, __append_count_message, try_except.
  rewrite (bind_ok (connect_works s H)). reflexivity.
Qed.

(** ** Connections that are up, and lost *)

Lemma transport_error_same w s s' :
  lost s' = lost s -> transport_error w s' = transport_error w s.
Proof. intros H. unfold transport_error. now rewrite H. Qed.

Lemma reached_same ws s s' : lost s' = lost s -> reached s' ws = reached s ws.
Proof.
  intros H. induction ws as [|w ws IH]; cbn; [reflexivity|].
  now rewrite (transport_error_same w s s' H), IH.
Qed.

Lemma ending_same ws s s' : lost s' = lost s -> ending s' ws = ending s ws.
Proof.
  intros H. induction ws as [|w ws IH]; cbn; [reflexivity|].
  now rewrite (transport_error_same w s s' H), IH.
Qed.

Lemma live_same w s s' : lost s' = lost s -> live s w -> live s' w.
Proof. unfold live. intros H. now rewrite (transport_error_same w s s' H). Qed.

Lemma reached_live s ws : Forall (live s) ws -> reached s ws = ws.
Proof.
  induction 1 as [|w ws Hw _ IH]; cbn; [reflexivity|].
  unfold live in Hw. now rewrite Hw, IH.
Qed.

Lemma ending_live s ws : Forall (live s) ws -> ending s ws = Ok tt.
Proof.
  induction 1 as [|w ws Hw _ IH]; cbn; [reflexivity|].
  unfold live in Hw. now rewrite Hw.
Qed.

Lemma ending_ok_live s ws : ending s ws = Ok tt -> Forall (live s) ws.
Proof.
  induction ws as [|w ws IH]; cbn; [constructor|].
  destruct (transport_error w s) eqn:E; [discriminate|].
  intros H. constructor; [exact E | now apply IH].
Qed.

Lemma ending_never_waits s ws : ending s ws <> Await.
Proof.
  induction ws as [|w ws IH]; cbn; [discriminate|].
  now destruct (transport_error w s).
Qed.

Lemma reached_incl s ws : incl (reached s ws) ws.
Proof.
  induction ws as [|w ws IH]; cbn; [apply incl_refl|].
  destruct (transport_error w s).
  - intros x [<- | []]. now left.
  - intros x [<- | H]; [now left | right; now apply IH].
Qed.

Lemma drain_live w s : live s w -> drain w s = (Ok tt, s).
Proof. unfold live, drain. now intros ->. Qed.

(** ** The loops of the senders *)

Lemma set_sent_nil s n :
  n = ticks s -> set_sent (sent s ++ []) (set_ticks n s) = s.
Proof. intros ->. destruct s. cbn. now rewrite app_nil_r. Qed.

(** A loop that reads the clock, writes and drains for each selected item
    stops at the first lost connection, after the write. *)
Lemma for_each_stamped {A} (body : A -> M unit) (sel : A -> bool)
      (dest : A -> handle) (line : datetime -> string) :
  (forall x s,
      body x s
      = (if sel x
         then t <- now ;; write (dest x) (line t) ;; drain (dest x)
         else ret tt) s) ->
  forall xs s,
    for_each xs body s
    = (ending s (map dest (filter sel xs)),
       set_sent (sent s ++ stamped (reached s (map dest (filter sel xs)))
                                   (ticks s) line)
                (set_ticks (ticks s
                            + length (reached s (map dest (filter sel xs)))) s)).
Proof.
  intros Hbody xs. induction xs as [|x xs IH]; intros s.
  - cbn. rewrite set_sent_nil; [reflexivity | lia].
  - cbn [for_each filter]. unfold bind at 1. rewrite Hbody.
    destruct (sel x); [|cbn [ret]; now rewrite IH].
    cbn [map reached ending].
    unfold bind at 1, now at 1. unfold bind at 1, write at 1, modify at 1.
    unfold drain at 1.
    rewrite (transport_error_same (dest x) s) by reflexivity.
    destruct (transport_error (dest x) s) as [e|].
    + cbn. destruct s. unfold set_sent, set_ticks. cbn.
      do 2 f_equal. lia.
    + rewrite IH.
      rewrite (ending_same _ s) by reflexivity.
      rewrite (reached_same _ s) by reflexivity.
      destruct s. unfold set_sent, set_ticks. cbn.
      rewrite <- app_assoc. cbn. do 2 f_equal. lia.
Qed.

(** The same for a loop that writes one line, the same for every handle. *)
Lemma for_each_plain (body : handle -> M unit) (sel : handle -> bool)
      (line : string) :
  (forall x s,
      body x s = (if sel x then write x line ;; drain x else ret tt) s) ->
  forall xs s,
    for_each xs body s
    = (ending s (filter sel xs),
       set_sent (sent s ++ map (fun w => (w, line)) (reached s (filter sel xs)))
                s).
Proof.
  intros Hbody xs. induction xs as [|x xs IH]; intros s.
  - cbn. destruct s. cbn. now rewrite app_nil_r.
  - cbn [for_each filter]. unfold bind at 1. rewrite Hbody.
    destruct (sel x); [|cbn [ret]; now rewrite IH].
    cbn [map reached ending].
    unfold bind at 1, write at 1, modify at 1. unfold drain at 1.
    rewrite (transport_error_same x s) by reflexivity.
    destruct (transport_error x s) as [e|].
    + reflexivity.
    + rewrite IH.
      rewrite (ending_same _ s) by reflexivity.
      rewrite (reached_same _ s) by reflexivity.
      destruct s. unfold set_sent. cbn. now rewrite <- app_assoc.
Qed.

Lemma send_to_all_run w sender m s :
  send_to_all w sender m s
  = (ending s (others w (users s)),
     set_sent (sent s ++ stamped (reached s (others w (users s))) (ticks s)
                                 (fun t => chat_line t sender m))
              (set_ticks (ticks s + length (reached s (others w (users s)))) s)).
Proof.
  unfold send_to_all. unfold bind at 1, get.
  rewrite (for_each_stamped _ (fun x => negb (Nat.eqb x w)) (fun x => x)
                            (fun t => chat_line t sender m)).
  - unfold others. now rewrite map_id.
  - intros x s0. destruct (negb (Nat.eqb x w)); reflexivity.
Qed.

Lemma send_to_one_run sender m r s :
  let hit := values (filter (fun kv => String.eqb (fst kv) r) (users s)) in
  send_to_one sender m r s
  = (ending s hit,
     set_sent (sent s ++ stamped (reached s hit) (ticks s)
                                 (fun t => chat_line t sender m))
              (set_ticks (ticks s + length (reached s hit)) s)).
Proof.
  intros hit. unfold send_to_one. unfold bind at 1, get.
  rewrite (for_each_stamped _ (fun kv => String.eqb (fst kv) r) snd
                            (fun t => chat_line t sender m)).
  - reflexivity.
  - intros [k x] s0. cbn [fst snd]. destruct (String.eqb k r); reflexivity.
Qed.

Lemma send_hello_run w sender s :
  send_hello w sender s
  = (ending s (others w (users s)),
     set_sent (sent s ++ map (fun x => (x, hello_line sender))
                             (reached s (others w (users s)))) s).
Proof.
  unfold send_hello. unfold bind at 1, get.
  rewrite (for_each_plain _ (fun x => negb (Nat.eqb x w)) (hello_line sender)).
  - reflexivity.
  - intros x s0. destruct (negb (Nat.eqb x w)); reflexivity.
Qed.

Lemma send_limit_warning_run w s :
  send_limit_warning w s
  = (ending s [w], set_sent (sent s ++ [(w, limit_line)]) s).
Proof.
  unfold send_limit_warning, bind, write, modify, drain. cbn [ending].
  rewrite (transport_error_same w s) by reflexivity.
  now destruct (transport_error w s).
Qed.

Lemma backlog_run (rows : list row) w s :
  for_each rows (fun m =>
      let '(m0, m1, m2) := m in
      let message := str_datetime m2 +++ " " +++ m1 +++ ": " +++ m0 +++ LF in
      write w message ;; drain w) s
  = (backlog_ending s w rows,
     set_sent (sent s ++ map (fun m => (w, backlog_line m))
                             (backlog_reached s w rows)) s).
Proof.
  unfold backlog_ending, backlog_reached.
  destruct (transport_error w s) as [e|] eqn:E.
  - destruct rows as [|[[m0 m1] m2] rows].
    + cbn. destruct s. cbn. now rewrite app_nil_r.
    + cbn [for_each firstn map]. unfold bind at 1.
      unfold bind at 1, write at 1, modify at 1. unfold drain at 1.
      rewrite (transport_error_same w s) by reflexivity. now rewrite E.
  - revert s E. induction rows as [|[[m0 m1] m2] rows IH]; intros s E.
    + cbn. destruct s. cbn. now rewrite app_nil_r.
    + cbn [for_each map]. unfold bind at 1.
      unfold bind at 1, write at 1, modify at 1. unfold drain at 1.
      rewrite (transport_error_same w s) by reflexivity. rewrite E.
      rewrite IH by (now rewrite (transport_error_same w s)).
      assert (Ok_ : forall l : list row,
                match l with [] => Ok tt | _ :: _ => @Ok unit tt end = Ok tt)
        by (now intros []).
      rewrite !Ok_. destruct s. unfold set_sent. cbn.
      now rewrite <- app_assoc.
Qed.

(** A key of a well-formed registry selects at most its own entry. *)
Lemma filter_key_wf (d : list (string * handle)) (k : string) :
  dict_wf d ->
  filter (fun kv => String.eqb (fst kv) k) d
  = match dict_get d k with Some w => [(k, w)] | None => [] end.
Proof.
  unfold dict_wf, dict_get, keys.
  induction d as [|[k' w'] d IH]; intros Hwf; [reflexivity|].
  cbn in Hwf. inversion Hwf as [|? ? Hnotin Hwf']; subst.
  cbn [filter find fst]. destruct (String.eqb k' k) eqn:E.
  - apply String.eqb_eq in E. subst k'. cbn. f_equal.
    assert (Hno : forall kv, In kv d -> String.eqb (fst kv) k = false).
    { intros kv Hin. destruct (String.eqb (fst kv) k) eqn:E'; [|reflexivity].
      apply String.eqb_eq in E'. exfalso. apply Hnotin.
      rewrite <- E'. now apply in_map. }
    clear - Hno. induction d as [|kv d IH]; [reflexivity|].
    cbn. rewrite (Hno kv (or_introl eq_refl)). apply IH.
    intros kv' Hin. apply Hno. now right.
  - now apply IH.
Qed.

(** ** The dispatcher *)

Lemma store_message_works d r s :
  field d "username" = Some (username r) ->
  field d "receiver" = Some (receiver r) ->
  field d "message" = Some (message r) ->
  engine s = [] ->
  store_message d s
  = (Ok tt,
     set_messages (messages s ++ [stored_message r (clock (ticks s))])
                  (set_ticks (S (ticks s)) s)).
Proof.
  intros Hu Hr Hm He. unfold store_message.
  rewrite (bind_ok (getitem_ok _ _ _ s Hm)).
  rewrite (bind_ok (getitem_ok _ _ _ s Hu)).
  rewrite (bind_ok (getitem_ok _ _ _ s Hr)).
  now rewrite create_record_works.
Qed.

(** One 'all' request of a user who has a record, on an engine that
    works: the warning when the count has reached the limit, and otherwise
    the broadcast, which stops at the first lost connection and then leaves
    the count as it was. *)
Lemma all_step data r writer s row :
  decodes_to data r ->
  target r = "all" ->
  engine s = [] ->
  find (has_username (username r)) (registrations s) = Some row ->
  let c := r_count_messages row in
  let over := (LIMIT_MESSAGES <=? c)%Z in
  let ws := others writer (users s) in
  exists s',
    process_data data writer s
    = ((if over then ending s [writer] else ending s ws), s')
    /\ engine s' = [] /\ users s' = users s /\ lost s' = lost s
    /\ messages s' = messages s ++ [stored_message r (clock (ticks s))]
    /\ registrations s'
       = (if over then registrations s
          else match ending s ws with
               | Ok _ =>
                   map (fun x => if has_username (username r) x
                                 then set_count (c + 1) x else x)
                       (registrations s)
               | _ => registrations s
               end)
    /\ sent s'
       = sent s
         ++ (if over then [(writer, limit_line)]
             else stamped (reached s ws) (S (ticks s))
                          (fun t => chat_line t (username r) (message r))).
Proof.
  intros (d & Hd & Hu & Ht & Hr & Hm) Hall He Hrow c over ws.
  rewrite Hall in Ht.
  unfold process_data. rewrite Hd.
  rewrite (bind_ok (eq_refl : ret d s = (Ok d, s))).
  rewrite (bind_ok (getitem_ok _ _ _ s Ht)).
  rewrite (bind_ok (getitem_ok _ _ _ s Hu)).
  change (String.eqb "all" "hello") with false.
  change (String.eqb "all" "all") with true. cbn [negb].
  rewrite (bind_ok (store_message_works d r s Hu Hr Hm He)).
  rewrite (bind_ok (get_user_works _ (set_messages _ (set_ticks _ s)) He)).
  cbn [registrations set_messages set_ticks]. rewrite Hrow.
  unfold bind at 1, ret at 1. fold c. fold over.
  destruct over.
  - rewrite send_limit_warning_run.
    rewrite (ending_same [writer] s) by reflexivity.
    eexists. split; [reflexivity|]. cbn. auto 10.
  - rewrite (bind_ok (getitem_ok _ _ _ _ Hm)).
    unfold bind at 1. rewrite send_to_all_run.
    cbn [users ticks set_messages set_ticks].
    rewrite (ending_same _ s), (reached_same _ s) by reflexivity.
    fold ws. destruct (ending s ws) as [[]| e |].
    + rewrite append_count_works by exact He.
      eexists. split; [reflexivity|]. cbn. auto 10.
    + eexists. split; [reflexivity|]. cbn. auto 10.
    + eexists. split; [reflexivity|]. cbn. auto 10.
Qed.

(** C1: an 'all' request of a user whose stored count has reached
    LIMIT_MESSAGES is answered with the warning line on the requester's own
    connection and with nothing else: no other handle is written to, the
    registry and the table of registrations (so every count) stay as they
    were, and the engine still works, so the next such request is answered
    the same way.  The request ends as the drain of the requester's
    connection ends: normally, unless that connection is lost. *)
Theorem limit_reached_only_warns data r writer s row :
  decodes_to data r ->
  target r = "all" ->
  engine s = [] ->
  find (has_username (username r)) (registrations s) = Some row ->
  (LIMIT_MESSAGES <= r_count_messages row)%Z ->
  exists s',
    process_data data writer s
    = (match transport_error writer s with
       | Some e => Raise e
       | None => Ok tt
       end, s')
    /\ sent s'
       = sent s
         ++ [(writer,
              "You have reached the limit for sending messages to the general chat"
              +++ LF)]
    /\ (forall w, w <> writer -> outbox w s' = outbox w s)
    /\ registrations s' = registrations s
    /\ users s' = users s
    /\ engine s' = [].
Proof.
  intros Hdec Hall He Hrow Hlim.
  destruct (all_step data r writer s row Hdec Hall He Hrow)
    as (s' & Hrun & He' & Hus & _ & _ & Hreg & Hsent).
  apply Z.leb_le in Hlim. rewrite Hlim in Hrun, Hreg, Hsent.
  exists s'. split; [exact Hrun|]. split; [exact Hsent|].
  split; [|auto].
  intros w Hw. unfold outbox. rewrite Hsent, filter_app, map_app. cbn.
  apply Nat.eqb_neq in Hw. rewrite Nat.eqb_sym in Hw. rewrite Hw.
  cbn. now rewrite app_nil_r.
Qed.

Lemma stamped_fst ws n line x :
  In x (stamped ws n line) -> In (fst x) ws.
Proof.
  revert n. induction ws as [|w ws IH]; intros n; cbn; [tauto|].
  intros [<- | H]; [now left | right; eauto].
Qed.

Lemma stamped_reaches ws n line w :
  In w ws -> exists k, In (w, line (clock k)) (stamped ws n line).
Proof.
  revert n. induction ws as [|w' ws IH]; intros n; cbn; [tauto|].
  intros [-> | H].
  - exists n. now left.
  - destruct (IH (S n) H) as [k Hk]. exists k. now right.
Qed.

Lemma others_in w d x : In x (others w d) <-> In x (values d) /\ x <> w.
Proof.
  unfold others. rewrite filter_In, negb_true_iff, Nat.eqb_neq. tauto.
Qed.

Lemma outbox_untouched w s extra :
  (forall x, In x extra -> fst x <> w) ->
  map snd (filter (fun x => Nat.eqb (fst x) w) (sent s ++ extra))
  = outbox w s.
Proof.
  intros H. unfold outbox. rewrite filter_app, map_app.
  match goal with |- _ ++ map snd ?f = _ => assert (E : f = []) end.
  { induction extra as [|x extra IH]; [reflexivity|].
    cbn. destruct (Nat.eqb (fst x) w) eqn:E.
    - apply Nat.eqb_eq in E. exfalso. apply (H x); [now left | exact E].
    - apply IH. intros y Hy. apply H. now right. }
  rewrite E. cbn. now rewrite app_nil_r.
Qed.

Lemma find_after_update u c regs row :
  find (has_username u) regs = Some row ->
  find (has_username u)
       (map (fun r => if has_username u r
                      then mkRegistration (r_username r) (r_reg_date r) c
                      else r) regs)
  = Some (mkRegistration (r_username row) (r_reg_date row) c).
Proof.
  induction regs as [|x regs IH]; cbn; [discriminate|].
  destruct (has_username u x) eqn:E.
  - intros [= <-]. unfold has_username at 1. cbn [r_username].
    unfold has_username in E. now rewrite E.
  - intros H. rewrite E. now apply IH.
Qed.

(** C2, as the code has it: an 'all' request of a user whose stored count
    is below LIMIT_MESSAGES writes the line '<now> <sender>: <message>' to
    the handles of the registry other than the requester's own, in the
    order of the registry and with one reading of the clock per recipient,
    up to and including the first whose connection is lost; the requester's
    own connection is sent nothing.  When no recipient's connection is lost
    every one of them is written to, the request ends normally and the
    stored count of the user is the count that was read plus one.
    Otherwise the request ends with the exception of the lost connection,
    the recipients after it are not written to and no count changes. *)
Theorem below_limit_broadcasts data r writer s row :
  decodes_to data r ->
  target r = "all" ->
  engine s = [] ->
  find (has_username (username r)) (registrations s) = Some row ->
  (r_count_messages row < LIMIT_MESSAGES)%Z ->
  let line := fun t =>
    str_datetime t +++ " " +++ username r +++ ": " +++ message r +++ LF in
  let recipients := others writer (users s) in
  let delivered := stamped (reached s recipients) (S (ticks s)) line in
  exists res s',
    process_data data writer s = (res, s')
    /\ res = ending s recipients
    /\ sent s' = sent s ++ delivered
    /\ outbox writer s' = outbox writer s
    /\ users s' = users s
    /\ (Forall (live s) recipients ->
        res = Ok tt
        /\ (forall u w, In (u, w) (users s) -> w <> writer ->
                        exists k, In (w, line (clock k)) delivered)
        /\ find (has_username (username r)) (registrations s')
           = Some (mkRegistration (r_username row) (r_reg_date row)
                                  (r_count_messages row + 1)))
    /\ (res <> Ok tt -> registrations s' = registrations s).
Proof.
  intros Hdec Hall He Hrow Hlim line recipients delivered.
  destruct (all_step data r writer s row Hdec Hall He Hrow)
    as (s' & Hrun & _ & Hus & _ & _ & Hreg & Hsent).
  assert (Hlt : (LIMIT_MESSAGES <=? r_count_messages row)%Z = false)
    by (apply Z.leb_gt; lia).
  rewrite Hlt in Hrun, Hreg, Hsent. fold recipients in Hrun, Hreg, Hsent.
  exists (ending s recipients), s'.
  split; [exact Hrun|]. split; [reflexivity|]. split; [exact Hsent|].
  split; [|split; [exact Hus|split]].
  - unfold outbox at 1. rewrite Hsent.
    apply outbox_untouched. intros x Hx. apply stamped_fst in Hx.
    apply reached_incl in Hx. now apply others_in in Hx.
  - intros Hlive. rewrite (ending_live _ _ Hlive) in Hreg |- *.
    split; [reflexivity|]. split.
    + intros u w Hin Hw. unfold delivered.
      rewrite (reached_live _ _ Hlive).
      apply (stamped_reaches _ _ line). apply others_in. split; [|exact Hw].
      unfold values. change w with (snd (u, w)). now apply in_map.
    + rewrite Hreg. now apply find_after_update.
  - intros Hne. rewrite Hreg.
    destruct (ending s recipients) as [[]| e |]; [now contradiction Hne| |];
      reflexivity.
Qed.

(** ** The storage functions on any engine

    None of them raises, whatever the engine does, and none touches the
    registry or a connection. *)

Ltac storage_run s :=
  unfold try_except, bind, connect, execute, fetch, now, get, ret, raise,
    logger_error, modify;
  destruct s as [us rs ms se cl lg tk en lo]; cbn;
  destruct en as [|[[er|er]|] rest]; cbn.

Lemma get_user_total u s :
  exists res s',
    get_user u s = (Ok res, s') /\ same_io s s' /\ same_tables s s'.
Proof.
  unfold get_user, __get_user. storage_run s;
    do 2 eexists; (split; [reflexivity|]); repeat split.
Qed.

Lemma reg_user_total u s :
  exists s',
    reg_user u s = (Ok tt, s') /\ same_io s s' /\ messages s' = messages s.
Proof.
  unfold reg_user, __create_user_db_record. storage_run s;
    try (destruct (existsb (has_username u) rs); cbn);
    eexists; (split; [reflexivity|]); repeat split.
Qed.

Lemma create_record_total m u r s :
  exists s', __create_record_in_db m u r s = (Ok tt, s') /\ same_io s s'.
Proof.
  unfold __create_record_in_db. storage_run s;
    eexists; (split; [reflexivity|]); repeat split.
Qed.

Lemma get_available_total u t s :
  exists rows s',
    __get_available_messages u t s = (Ok rows, s')
    /\ same_io s s' /\ same_tables s s'
    /\ (engine s = [] ->
        rows = get_message_query LIMIT_SHOW_MESSAGES u t (messages s)
        /\ s' = s).
Proof.
  unfold __get_available_messages. storage_run s;
    do 2 eexists; (split; [reflexivity|]); repeat split; discriminate.
Qed.

Lemma append_count_total u c s :
  exists s',
    append_count_message u c s = (Ok tt, s')
    /\ same_io s s' /\ messages s' = messages s.
Proof.
  unfold append_count_message, __append_count_message. storage_run s;
    eexists; (split; [reflexivity|]); repeat split.
Qed.

Lemma reset_limits_total s :
  exists s',
    __reset_limits s = (Ok tt, s') /\ same_io s s' /\ messages s' = messages s.
Proof.
  unfold __reset_limits. storage_run s;
    eexists; (split; [reflexivity|]); repeat split.
Qed.

Lemma delete_old_total s :
  exists s',
    __delete_old_messages s = (Ok tt, s')
    /\ same_io s s' /\ registrations s' = registrations s.
Proof.
  unfold __delete_old_messages. storage_run s;
    eexists; (split; [reflexivity|]); repeat split.
Qed.

Lemma store_message_total d r s :
  field d "username" = Some (username r) ->
  field d "receiver" = Some (receiver r) ->
  field d "message" = Some (message r) ->
  exists s', store_message d s = (Ok tt, s') /\ same_io s s'.
Proof.
  intros Hu Hr Hm. unfold store_message.
  rewrite (bind_ok (getitem_ok _ _ _ s Hm)).
  rewrite (bind_ok (getitem_ok _ _ _ s Hu)).
  rewrite (bind_ok (getitem_ok _ _ _ s Hr)).
  apply create_record_total.
Qed.

Lemma same_io_trans s1 s2 s3 : same_io s1 s2 -> same_io s2 s3 -> same_io s1 s3.
Proof.
  unfold same_io. intros (a & b & c & d) (a' & b' & c' & d').
  repeat split; congruence.
Qed.

(** Looking the user up and creating the record when there is none, as
    [process_data] does before it dispatches, followed by any [k]. *)
Lemma user_phase {B} u (k : datetime * Z -> M B) s :
  exists found s',
    bind (get_user u)
         (fun exist_user =>
            bind (match exist_user with
                  | None =>
                      reg_user u ;;
                      reg_date <- now ;;
                      ret (reg_date, 0%Z)
                  | Some exist_user =>
                      ret (r_reg_date exist_user, r_count_messages exist_user)
                  end) k) s
    = k found s'
    /\ same_io s s' /\ messages s' = messages s
    /\ (engine s = [] ->
        engine s' = []
        /\ match find (has_username u) (registrations s) with
           | Some row =>
               found = (r_reg_date row, r_count_messages row) /\ s' = s
           | None =>
               found = (clock (S (ticks s)), 0%Z)
               /\ registrations s'
                  = registrations s
                    ++ [mkRegistration u (clock (ticks s))
                                       count_messages_default]
           end).
Proof.
  destruct (get_user_total u s) as (res & s1 & Hg & Hio1 & Hr1 & Hm1).
  rewrite (bind_ok Hg).
  destruct res as [row|].
  - exists (r_reg_date row, r_count_messages row), s1.
    split; [reflexivity|]. split; [exact Hio1|]. split; [exact Hm1|].
    intros He. rewrite (get_user_works u s He) in Hg.
    injection Hg as Hfind <-. rewrite Hfind. auto.
  - destruct (reg_user_total u s1) as (s2 & Hreg & Hio2 & Hm2).
    exists (clock (ticks s2), 0%Z), (set_ticks (S (ticks s2)) s2).
    split.
    + unfold bind at 1. unfold bind at 1. rewrite Hreg.
      reflexivity.
    + split; [|split].
      * eapply same_io_trans; [exact Hio1|].
        eapply same_io_trans; [exact Hio2|]. now repeat split.
      * cbn. congruence.
      * intros He. rewrite (get_user_works u s He) in Hg.
        injection Hg as Hfind <-. rewrite Hfind.
        rewrite (reg_user_works u s He Hfind) in Hreg.
        injection Hreg as <-. cbn. auto.
Qed.

Lemma send_available_run u w t s :
  exists rows s1,
    __get_available_messages u t s = (Ok rows, s1)
    /\ send_available_messages u w t s
       = (backlog_ending s w rows,
          set_sent (sent s1 ++ map (fun m => (w, backlog_line m))
                                   (backlog_reached s w rows)) s1)
    /\ same_io s s1 /\ same_tables s s1
    /\ (engine s = [] ->
        rows = get_message_query LIMIT_SHOW_MESSAGES u t (messages s)
        /\ s1 = s).
Proof.
  destruct (get_available_total u t s) as (rows & s1 & Hrun & Hio & Htab & Hw).
  exists rows, s1. split; [exact Hrun|]. split; [|auto].
  unfold send_available_messages. rewrite (bind_ok Hrun).
  rewrite backlog_run. unfold backlog_ending, backlog_reached.
  destruct Hio as (_ & _ & _ & Hlost).
  now rewrite (transport_error_same w s s1 Hlost).
Qed.

Ltac user_phase_step found s1 Hio Hmsg Hw :=
  let Hrun := fresh "Hrun" in
  match goal with
  | |- context [bind (get_user ?u) (fun eu => bind (@?m eu) ?k) ?s0] =>
      destruct (user_phase u k s0) as (found & s1 & Hrun & Hio & Hmsg & Hw)
  end;
  rewrite Hrun; clear Hrun.

Lemma dict_set_values d k v x :
  In x (values (dict_set d k v)) -> x = v \/ In x (values d).
Proof.
  unfold values. induction d as [|[k' v'] d IH]; cbn.
  - intuition congruence.
  - destruct (String.eqb k' k); cbn.
    + intuition congruence.
    + intros [<- | H]; [tauto|]. destruct (IH H); tauto.
Qed.

Lemma live_incl s s1 l l' :
  lost s1 = lost s -> Forall (live s) l -> incl l' l -> Forall (live s1) l'.
Proof.
  intros Hlost Hl Hincl. apply Forall_forall. intros x Hx.
  apply (live_same x s s1 Hlost).
  rewrite Forall_forall in Hl. now apply Hl, Hincl.
Qed.

Lemma others_incl w d : incl (others w d) (values d).
Proof. intros x Hx. now apply others_in in Hx. Qed.

(** What a 'hello' request does, whatever the engine does and whichever
    connections are lost: when the requester's own connection is lost and
    there is a backlog, the request ends after the first line of it, the
    registry as it was; otherwise the whole backlog is written, the
    registry is assigned and the others are told, up to the first lost
    connection. *)
Lemma hello_run data r writer s :
  decodes_to data r ->
  target r = "hello" ->
  let found :=
    find (has_username (username r)) (registrations s) in
  let since :=
    match found with
    | Some row => r_reg_date row
    | None => clock (S (ticks s))
    end in
  let registry := dict_set (users s) (username r) writer in
  exists backlog res s',
    process_data data writer s = (res, s')
    /\ messages s' = messages s
    /\ closed s' = closed s
    /\ lost s' = lost s
    /\ incl (values (users s')) (writer :: values (users s))
    /\ (engine s = [] ->
        engine s' = []
        /\ backlog = get_message_query LIMIT_SHOW_MESSAGES (username r) since
                                       (messages s)
        /\ registrations s'
           = match found with
             | Some _ => registrations s
             | None =>
                 registrations s
                 ++ [mkRegistration (username r) (clock (ticks s))
                                    count_messages_default]
             end)
    /\ match backlog_ending s writer backlog with
       | Ok _ =>
           res = ending s (others writer registry)
           /\ sent s'
              = sent s
                ++ map (fun m => (writer, backlog_line m)) backlog
                ++ map (fun w => (w, hello_line (username r)))
                       (reached s (others writer registry))
           /\ users s' = registry
       | _ =>
           res = backlog_ending s writer backlog
           /\ sent s'
              = sent s
                ++ map (fun m => (writer, backlog_line m)) (firstn 1 backlog)
           /\ users s' = users s
       end.
Proof.
  intros (d & Hd & Hu & Ht & Hr & Hm) Hhello found0 since registry.
  rewrite Hhello in Ht.
  unfold process_data. rewrite Hd.
  rewrite (bind_ok (eq_refl : ret d s = (Ok d, s))).
  rewrite (bind_ok (getitem_ok _ _ _ s Ht)).
  rewrite (bind_ok (getitem_ok _ _ _ s Hu)).
  change (String.eqb "hello" "hello") with true. cbn [negb].
  rewrite (bind_ok (eq_refl : ret tt s = (Ok tt, s))).
  user_phase_step found s1 Hio Hmsg Hw. destruct found as [reg_date count].
  destruct (send_available_run (username r) writer reg_date s1)
    as (rows & s2 & _ & Hsend & Hio2 & Htab2 & Hrows).
  destruct Hio as (Hus1 & Hse1 & Hcl1 & Hlo1).
  destruct Hio2 as (Hus2 & Hse2 & Hcl2 & Hlo2).
  destruct Htab2 as (Hreg2 & Hmsg2).
  assert (Hw' : engine s = [] ->
                engine s2 = []
                /\ rows = get_message_query LIMIT_SHOW_MESSAGES (username r)
                                            since (messages s)
                /\ registrations s2
                   = match found0 with
                     | Some _ => registrations s
                     | None =>
                         registrations s
                         ++ [mkRegistration (username r) (clock (ticks s))
                                            count_messages_default]
                     end).
  { intros He. destruct (Hw He) as [He1 Hfound].
    destruct (Hrows He1) as [-> ->]. split; [exact He1|].
    rewrite Hmsg. unfold since, found0.
    destruct (find (has_username (username r)) (registrations s)) as [row|].
    - destruct Hfound as [[= -> _] ->]. auto.
    - destruct Hfound as [[= -> _] ->]. auto. }
  assert (Hback : backlog_ending s1 writer rows = backlog_ending s writer rows
                  /\ backlog_reached s1 writer rows
                     = backlog_reached s writer rows).
  { unfold backlog_ending, backlog_reached.
    now rewrite (transport_error_same writer s s1 Hlo1). }
  destruct Hback as [Hbe Hbr]. rewrite Hbe, Hbr in Hsend.
  exists rows. unfold bind at 1. rewrite Hsend.
  destruct (backlog_ending s writer rows) as [[]| e |] eqn:Eb.
  - unfold bind at 1, modify at 1. rewrite send_hello_run.
    cbn [users sent set_sent set_users].
    rewrite (ending_same _ s), (reached_same _ s)
      by (cbn [lost set_sent set_users]; congruence).
    rewrite Hus2, Hus1. fold registry.
    do 2 eexists. split; [reflexivity|].
    cbn [sent users messages closed lost registrations engine set_sent
         set_users].
    split; [congruence|]. split; [congruence|]. split; [congruence|].
    split; [|split; [exact Hw'|]].
    + intros x Hx. apply dict_set_values in Hx.
      destruct Hx as [-> | Hx]; [now left | now right].
    + split; [reflexivity|]. split; [|reflexivity].
      rewrite Hse2, Hse1, <- app_assoc. do 2 f_equal.
      unfold backlog_reached. unfold backlog_ending in Eb.
      destruct (transport_error writer s); [|reflexivity].
      now destruct rows.
  - do 2 eexists. split; [reflexivity|].
    cbn [sent users messages closed lost registrations engine set_sent].
    split; [congruence|]. split; [congruence|]. split; [congruence|].
    split; [|split; [exact Hw'|]].
    + rewrite Hus2, Hus1. now apply incl_tl.
    + split; [reflexivity|]. split; [|congruence].
      rewrite Hse2, Hse1. do 2 f_equal.
      unfold backlog_reached. unfold backlog_ending in Eb.
      destruct (transport_error writer s); [reflexivity|].
      now destruct rows.
  - exfalso. unfold backlog_ending in Eb.
    destruct rows, (transport_error writer s); discriminate.
Qed.

Lemma insert_by_date_sorted r rs :
  Sorted date_le rs -> Sorted date_le (insert_by_date r rs).
Proof.
  induction rs as [|r' rs IH]; intros Hs; cbn.
  - repeat constructor.
  - destruct (row_date r <=? row_date r')%Z eqn:E.
    + constructor; [exact Hs|]. constructor. now apply Z.leb_le.
    + apply Z.leb_gt in E. inversion Hs as [|? ? Hs' Hhd]; subst.
      constructor; [now apply IH|].
      destruct rs as [|r'' rs]; cbn.
      * constructor. unfold date_le. lia.
      * destruct (row_date r <=? row_date r'')%Z.
        -- constructor. unfold date_le. lia.
        -- inversion Hhd; subst. now constructor.
Qed.

Lemma order_by_send_date_sorted rs : Sorted date_le (order_by_send_date rs).
Proof.
  induction rs as [|r rs IH]; cbn; [constructor|].
  now apply insert_by_date_sorted.
Qed.

Lemma backlog_ending_ok s w rows :
  rows = [] \/ live s w -> backlog_ending s w rows = Ok tt.
Proof.
  unfold backlog_ending, live. intros [-> | ->]; [reflexivity|].
  now destruct rows.
Qed.

(** C4, as the code has it: a 'hello' request is served in three steps, in
    this order.  (1) The backlog is written to the requester's own
    connection, one line '<timestamp> <sender>: <text>' per row, in
    ascending order of send date; when that connection is lost the request
    ends with its exception after the first line, before the registry is
    assigned.  (2) The registry maps the username to this connection, in
    place of the handle it had if it had one.  (3) The line 'New guest in
    the chat! - <username>' is written to the handles of the registry as
    it then is, the requester's own apart, up to and including the first
    whose connection is lost: to every one of them, and the request ends
    normally, when none is lost.  The backlog is what the storage function
    returns: on an engine that works, the rows of the query for the
    username and its registration instant (the stored one, or the instant
    read after the record was created). *)
Theorem hello_backlog_register_announce data r writer s :
  decodes_to data r ->
  target r = "hello" ->
  let since :=
    match find (has_username (username r)) (registrations s) with
    | Some row => r_reg_date row
    | None => clock (S (ticks s))
    end in
  let registry := dict_set (users s) (username r) writer in
  let told := others writer registry in
  let announcement := "New guest in the chat! - " +++ username r +++ LF in
  exists backlog res s',
    process_data data writer s = (res, s')
    /\ (engine s = [] ->
        Permutation backlog
          (get_message_query LIMIT_SHOW_MESSAGES (username r) since
                             (messages s))
        /\ Sorted date_le backlog)
    /\ (forall m rest e,
           backlog = m :: rest -> transport_error writer s = Some e ->
           res = Raise e
           /\ sent s' = sent s ++ [(writer, backlog_line m)]
           /\ users s' = users s)
    /\ (backlog = [] \/ live s writer ->
        res = ending s told
        /\ sent s'
           = sent s
             ++ map (fun m => (writer, backlog_line m)) backlog
             ++ map (fun w => (w, announcement)) (reached s told)
        /\ users s' = registry)
    /\ (backlog = [] \/ live s writer ->
        Forall (live s) told ->
        res = Ok tt
        /\ sent s'
           = sent s
             ++ map (fun m => (writer, backlog_line m)) backlog
             ++ map (fun w => (w, announcement)) told).
Proof.
  intros Hdec Hhello since registry told announcement.
  destruct (hello_run data r writer s Hdec Hhello)
    as (backlog & res & s' & Hrun & _ & _ & _ & _ & Hw & Hcase).
  exists backlog, res, s'. split; [exact Hrun|]. split; [|split; [|split]].
  - intros He. destruct (Hw He) as (_ & -> & _).
    split; [apply Permutation_refl|].
    unfold get_message_query. apply order_by_send_date_sorted.
  - intros m rest e -> Hlost. unfold backlog_ending in Hcase.
    rewrite Hlost in Hcase. exact Hcase.
  - intros Hfine. rewrite (backlog_ending_ok _ _ _ Hfine) in Hcase.
    exact Hcase.
  - intros Hfine Hlive. rewrite (backlog_ending_ok _ _ _ Hfine) in Hcase.
    destruct Hcase as (-> & Hsent & _).
    split; [now apply ending_live|].
    fold registry told in Hsent. rewrite (reached_live _ _ Hlive) in Hsent.
    exact Hsent.
Qed.

Lemma store_message_fields d r s :
  field d "username" = Some (username r) ->
  field d "receiver" = Some (receiver r) ->
  field d "message" = Some (message r) ->
  store_message d s
  = __create_record_in_db (message r) (username r) (receiver r) s.
Proof.
  intros Hu Hr Hm. unfold store_message.
  rewrite (bind_ok (getitem_ok _ _ _ s Hm)).
  rewrite (bind_ok (getitem_ok _ _ _ s Hu)).
  now rewrite (bind_ok (getitem_ok _ _ _ s Hr)).
Qed.

(** What a 'one_to_one' request does, whatever the engine does: one line
    for each entry of the registry under the receiver's name, up to the
    first whose connection is lost. *)
Lemma one_to_one_run data r writer s :
  decodes_to data r ->
  target r = "one_to_one" ->
  let hit :=
    values (filter (fun kv => String.eqb (fst kv) (receiver r)) (users s)) in
  exists s' n,
    process_data data writer s = (ending s hit, s')
    /\ users s' = users s
    /\ messages s'
       = messages
           (snd (__create_record_in_db (message r) (username r) (receiver r) s))
    /\ sent s'
       = sent s
         ++ stamped (reached s hit) n
                    (fun t => chat_line t (username r) (message r)).
Proof.
  intros (d & Hd & Hu & Ht & Hr & Hm) Hone hit.
  rewrite Hone in Ht.
  unfold process_data. rewrite Hd.
  rewrite (bind_ok (eq_refl : ret d s = (Ok d, s))).
  rewrite (bind_ok (getitem_ok _ _ _ s Ht)).
  rewrite (bind_ok (getitem_ok _ _ _ s Hu)).
  change (String.eqb "one_to_one" "hello") with false.
  change (String.eqb "one_to_one" "all") with false.
  change (String.eqb "one_to_one" "one_to_one") with true. cbn [negb].
  destruct (create_record_total (message r) (username r) (receiver r) s)
    as (s0 & Hstore & Hio0).
  rewrite <- (store_message_fields d r s Hu Hr Hm) in Hstore |- *.
  rewrite (bind_ok Hstore), Hstore. cbn [snd].
  user_phase_step found s1 Hio Hmsg Hw. destruct found as [reg_date count].
  rewrite (bind_ok (getitem_ok _ _ _ _ Hm)).
  rewrite (bind_ok (getitem_ok _ _ _ _ Hr)).
  rewrite send_to_one_run. cbv zeta.
  destruct Hio0 as (Hus0 & Hse0 & _ & Hlo0).
  destruct Hio as (Hus1 & Hse1 & _ & Hlo1).
  rewrite Hus1, Hus0. fold hit.
  rewrite (ending_same _ s s1), (reached_same _ s s1) by congruence.
  eexists. exists (ticks s1). split; [reflexivity|].
  cbn [sent users messages set_sent set_ticks].
  rewrite Hus1, Hus0, Hse1, Hse0. auto.
Qed.

(** C5: a 'one_to_one' request naming receiver R writes the formatted
    line '<now> <sender>: <message>' to the handle the registry holds for R
    and to no other handle, and ends as the drain of that handle ends:
    normally, unless R's connection is lost.  When R is not a key of the
    registry nothing is written to any handle, the sender's included, and
    the request ends without an exception. *)
Theorem one_to_one_reaches_only_receiver data r writer s :
  decodes_to data r ->
  target r = "one_to_one" ->
  dict_wf (users s) ->
  let line := fun t =>
    str_datetime t +++ " " +++ username r +++ ": " +++ message r +++ LF in
  exists res s' t,
    process_data data writer s = (res, s')
    /\ users s' = users s
    /\ match dict_get (users s) (receiver r) with
       | Some w =>
           sent s' = sent s ++ [(w, line t)]
           /\ res = match transport_error w s with
                    | Some e => Raise e
                    | None => Ok tt
                    end
       | None => sent s' = sent s /\ res = Ok tt
       end.
Proof.
  intros Hdec Hone Hwf line.
  destruct (one_to_one_run data r writer s Hdec Hone)
    as (s' & n & Hrun & Hus & _ & Hse).
  rewrite (filter_key_wf _ _ Hwf) in Hrun, Hse.
  eexists. exists s', (clock n). split; [exact Hrun|]. split; [exact Hus|].
  destruct (dict_get (users s) (receiver r)) as [w|]; cbn in Hse |- *.
  - destruct (transport_error w s); cbn in Hse; auto.
  - rewrite app_nil_r in Hse. auto.
Qed.

(** C10: a 'one_to_one' request whose receiver is the sender's own
    username is delivered to the handle the registry holds for that
    username: the loop of [send_to_one] leaves out no handle, so when that
    handle is the connection the request came in on, the sender is
    written its own message. *)
Theorem one_to_one_to_self_is_delivered data r writer s w :
  decodes_to data r ->
  target r = "one_to_one" ->
  receiver r = username r ->
  dict_wf (users s) ->
  dict_get (users s) (username r) = Some w ->
  let line := fun t =>
    str_datetime t +++ " " +++ username r +++ ": " +++ message r +++ LF in
  exists s' t,
    process_data data writer s
    = (match transport_error w s with
       | Some e => Raise e
       | None => Ok tt
       end, s')
    /\ sent s' = sent s ++ [(w, line t)]
    /\ outbox w s' = outbox w s ++ [line t].
Proof.
  intros Hdec Hone Hself Hwf Hget line.
  destruct (one_to_one_run data r writer s Hdec Hone)
    as (s' & n & Hrun & Hus & _ & Hse).
  rewrite (filter_key_wf _ _ Hwf), Hself, Hget in Hrun, Hse.
  assert (Hse' : sent s' = sent s ++ [(w, line (clock n))])
    by (cbn in Hse; destruct (transport_error w s); exact Hse).
  exists s', (clock n). split; [exact Hrun|]. split; [exact Hse'|].
  unfold outbox. rewrite Hse', filter_app, map_app. cbn.
  now rewrite Nat.eqb_refl.
Qed.

Lemma create_record_stores m u r s :
  hd None (engine s) = None ->
  messages (snd (__create_record_in_db m u r s))
  = messages s
    ++ [mkMessage m u (if String.eqb r empty_str then "all" else r)
                  (clock (ticks s))].
Proof.
  unfold __create_record_in_db. storage_run s; intros H;
    try discriminate; reflexivity.
Qed.

(** A request other than 'hello' leaves the table of messages alone after
    its first step, however it ends; it ends without an exception,
    whatever the engine does, when no connection it can write to is
    lost. *)
Lemma non_hello_run data r writer s :
  decodes_to data r ->
  target r <> "hello" ->
  exists res s',
    process_data data writer s = (res, s')
    /\ messages s'
       = messages
           (snd (__create_record_in_db (message r) (username r) (receiver r) s))
    /\ (Forall (live s) (writer :: values (users s)) -> res = Ok tt).
Proof.
  intros (d & Hd & Hu & Ht & Hr & Hm) Hne.
  apply String.eqb_neq in Hne.
  unfold process_data. rewrite Hd.
  rewrite (bind_ok (eq_refl : ret d s = (Ok d, s))).
  rewrite (bind_ok (getitem_ok _ _ _ s Ht)).
  rewrite (bind_ok (getitem_ok _ _ _ s Hu)).
  rewrite Hne. cbn [negb].
  destruct (create_record_total (message r) (username r) (receiver r) s)
    as (s0 & Hc & Hio0).
  rewrite <- (store_message_fields d r s Hu Hr Hm) in Hc |- *.
  rewrite (bind_ok Hc), Hc. cbn [snd].
  user_phase_step found s1 Hio Hmsg Hw. destruct found as [reg_date count].
  destruct Hio0 as (Hus0 & _ & _ & Hlo0).
  destruct Hio as (Hus1 & _ & _ & Hlo1).
  assert (Hlo : lost s1 = lost s) by congruence.
  assert (Hus : users s1 = users s) by congruence.
  destruct (String.eqb (target r) "all").
  - destruct (LIMIT_MESSAGES <=? count)%Z.
    + rewrite send_limit_warning_run.
      do 2 eexists. split; [reflexivity|]. split; [exact Hmsg|].
      intros Hlive. apply ending_live.
      apply (live_incl s s1 _ _ Hlo Hlive).
      intros x [<- | []]. now left.
    + rewrite (bind_ok (getitem_ok _ _ _ _ Hm)).
      unfold bind at 1. rewrite send_to_all_run.
      destruct (ending s1 (others writer (users s1))) as [[]| e |] eqn:E.
      * match goal with
        | |- context [append_count_message ?u ?c ?s2] =>
            destruct (append_count_total u c s2) as (s3 & Ha & _ & Hm3)
        end.
        rewrite Ha. do 2 eexists. split; [reflexivity|].
        split; [rewrite Hm3; exact Hmsg | reflexivity].
      * do 2 eexists. split; [reflexivity|]. split; [exact Hmsg|].
        intros Hlive. rewrite <- E. apply ending_live.
        apply (live_incl s s1 _ _ Hlo Hlive). rewrite Hus.
        apply incl_tl, others_incl.
      * now apply ending_never_waits in E.
  - destruct (String.eqb (target r) "one_to_one").
    + rewrite (bind_ok (getitem_ok _ _ _ _ Hm)).
      rewrite (bind_ok (getitem_ok _ _ _ _ Hr)).
      rewrite send_to_one_run.
      do 2 eexists. split; [reflexivity|]. split; [exact Hmsg|].
      intros Hlive. apply ending_live.
      apply (live_incl s s1 _ _ Hlo Hlive). rewrite Hus.
      apply incl_tl. unfold values. intros x Hx.
      apply in_map_iff in Hx. destruct Hx as (kv & <- & Hkv).
      apply filter_In in Hkv. now apply in_map.
    + do 2 eexists. split; [reflexivity|]. split; [exact Hmsg | reflexivity].
Qed.

(** C6: every decoded request whose target is not 'hello' stores one
    message record with the request's text and sender, whatever the target
    is otherwise, whether or not the user has a record and whether or not
    the limit is reached; an empty receiver is stored as 'all'.  The engine
    has to accept this first operation; what it does afterwards does not
    matter.  The record is stored before anything is sent, so it is there
    however the request ends; the request ends without an exception when
    no connection it can write to is lost. *)
Theorem every_non_hello_request_is_stored data r writer s :
  decodes_to data r ->
  target r <> "hello" ->
  hd None (engine s) = None ->
  exists res s',
    process_data data writer s = (res, s')
    /\ messages s'
       = messages s
         ++ [mkMessage (message r) (username r)
                       (if String.eqb (receiver r) empty_str
                        then "all" else receiver r)
                       (clock (ticks s))]
    /\ (Forall (live s) (writer :: values (users s)) -> res = Ok tt).
Proof.
  intros Hdec Hne He.
  destruct (non_hello_run data r writer s Hdec Hne)
    as (res & s' & Hrun & Hmsg & Hok).
  exists res, s'. split; [exact Hrun|]. split; [|exact Hok].
  rewrite Hmsg. now apply create_record_stores.
Qed.



(** A 'hello' ends without an exception when no connection it can write
    to is lost. *)
Lemma hello_live data r writer s :
  decodes_to data r ->
  target r = "hello" ->
  Forall (live s) (writer :: values (users s)) ->
  exists s',
    process_data data writer s = (Ok tt, s')
    /\ users s' = dict_set (users s) (username r) writer.
Proof.
  intros Hdec Hhello Hlive.
  destruct (hello_run data r writer s Hdec Hhello)
    as (backlog & res & s' & Hrun & _ & _ & _ & _ & _ & Hcase).
  rewrite backlog_ending_ok in Hcase
    by (right; now inversion Hlive).
  destruct Hcase as (-> & _ & Hus).
  exists s'. split; [|exact Hus]. rewrite Hrun. f_equal.
  apply ending_live. apply (live_incl s s _ _ eq_refl Hlive).
  intros x Hx. apply others_in in Hx. destruct Hx as [Hx Hne].
  apply dict_set_values in Hx. destruct Hx as [-> | Hx]; [now left | now right].
Qed.


(** A decoded request ends without an exception, whatever its target and
    whatever the engine does, when no connection it can write to is
    lost. *)
Lemma process_data_live data r writer s :
  decodes_to data r ->
  Forall (live s) (writer :: values (users s)) ->
  exists s', process_data data writer s = (Ok tt, s').
Proof.
  intros Hdec Hlive. destruct (String.eqb (target r) "hello") eqn:E.
  - apply String.eqb_eq in E.
    destruct (hello_live data r writer s Hdec E Hlive) as (s' & Hrun & _).
    now exists s'.
  - apply String.eqb_neq in E.
    destruct (non_hello_run data r writer s Hdec E) as (res & s' & Hrun & _ & Hok).
    exists s'. now rewrite Hrun, (Hok Hlive).
Qed.

(** C9: when the operation of a storage function meets a fault of the
    engine, be it at [connect] or at the statement, the function logs the
    error under its own label and returns its default ([None] for the user
    lookup, the empty list for the backlog, nothing for the five writes)
    without raising and without changing a table; and a decoded request is
    served to its end without an exception on any engine when no
    connection it can write to is lost, so the connection loop goes on. *)
Theorem storage_failure_is_logged_not_raised s f rest :
  engine s = Some f :: rest ->
  (forall u,
      get_user u s = (Ok None, refused "DB error - get user: " f rest s))
  /\ (forall u,
         reg_user u s
         = (Ok tt, refused "DB error - registration: " f rest (clock_read f s)))
  /\ (forall m u r,
         __create_record_in_db m u r s
         = (Ok tt,
            refused "DB error - record message: " f rest (clock_read f s)))
  /\ (forall u t,
         __get_available_messages u t s
         = (Ok [], refused "DB error - get messages: " f rest s))
  /\ (forall u c,
         append_count_message u c s
         = (Ok tt, refused "DB error - updating count messages: " f rest s))
  /\ __reset_limits s = (Ok tt, refused "DB error - reset limits: " f rest s)
  /\ __delete_old_messages s
     = (Ok tt, refused "DB error - deleting messages: " f rest
                       (set_ticks (S (ticks s)) s))
  /\ (forall data r writer,
         decodes_to data r ->
         Forall (live s) (writer :: values (users s)) ->
         exists s', process_data data writer s = (Ok tt, s')).
Proof.
  intros He.
  assert (Hrun : forall data r writer,
             decodes_to data r ->
             Forall (live s) (writer :: values (users s)) ->
             exists s', process_data data writer s = (Ok tt, s'))
    by (intros data r writer Hdec; now apply process_data_live with (r := r)).
  destruct s as [us rs ms se cl lg tk en lo]. cbn in He. subst en.
  unfold get_user, reg_user, append_count_message, __get_user,
    __create_user_db_record, __create_record_in_db, __get_available_messages,
    __append_count_message, __reset_limits, __delete_old_messages.
  destruct f as [er|er]; repeat split; intros; try reflexivity; eauto.
Qed.

(** ** What a request keeps

    A request leaves alone what speaks of the registry, of the closed
    handles and of the lost connections, but for the one assignment to the
    registry. *)

Section Frame.

Variable I : State -> Prop.
Hypothesis I_stable : io_stable I.
Hypothesis I_register :
  forall s u w, I s -> I (set_users (dict_set (users s) u w) s).

Lemma keeps_ret {A} (a : A) : keeps I (ret a).
Proof. now intros s. Qed.

Lemma keeps_raise {A} e : keeps I (@raise A e).
Proof. now intros s. Qed.

Lemma keeps_get : keeps I get.
Proof. now intros s. Qed.

Lemma keeps_bind {A B} (m : M A) (k : A -> M B) :
  keeps I m -> (forall a, keeps I (k a)) -> keeps I (bind m k).
Proof.
  intros Hm Hk s Hs. unfold bind. specialize (Hm s Hs).
  destruct (m s) as [[a| e |] s1]; cbn in *; [|assumption|assumption].
  now apply Hk.
Qed.

Lemma keeps_try {A} (body : M A) (handler : exn -> M A) :
  keeps I body -> (forall e, keeps I (handler e)) ->
  keeps I (try_except body handler).
Proof.
  intros Hb Hh s Hs. unfold try_except. specialize (Hb s Hs).
  destruct (body s) as [[a| e |] s1]; cbn in *; [assumption| |assumption].
  now apply Hh.
Qed.

Lemma keeps_for_each {A} (xs : list A) (body : A -> M unit) :
  (forall x, keeps I (body x)) -> keeps I (for_each xs body).
Proof.
  intros Hb. induction xs as [|x xs IH]; cbn.
  - apply keeps_ret.
  - apply keeps_bind; auto.
Qed.

Lemma keeps_connect : keeps I connect.
Proof.
  intros s Hs. unfold connect.
  destruct (engine s) as [|[[er|er]|] rest]; cbn;
    try assumption; now apply (I_stable s).
Qed.

Lemma keeps_execute c statement :
  (forall s s', statement s = inr s' ->
                users s' = users s /\ closed s' = closed s
                /\ lost s' = lost s) ->
  keeps I (execute c statement).
Proof.
  intros H s Hs. unfold execute. destruct c; [assumption|].
  destruct (statement s) eqn:E; [assumption|]. cbn.
  destruct (H _ _ E) as (? & ? & ?). now apply (I_stable s).
Qed.

Lemma keeps_fetch {A} c (query : State -> A) : keeps I (fetch c query).
Proof. intros s Hs. unfold fetch. now destruct c. Qed.

Lemma keeps_now : keeps I now.
Proof. intros s Hs. now apply (I_stable s). Qed.

Lemma keeps_getitem d k : keeps I (getitem d k).
Proof. intros s Hs. unfold getitem. now destruct (field d k). Qed.

Lemma keeps_write w line : keeps I (write w line).
Proof. intros s Hs. now apply (I_stable s). Qed.

Lemma keeps_drain w : keeps I (drain w).
Proof. intros s Hs. unfold drain. now destruct (transport_error w s). Qed.

Lemma keeps_logger_error line : keeps I (logger_error line).
Proof. intros s Hs. now apply (I_stable s). Qed.

Lemma keeps_register u w :
  keeps I (modify (fun s => set_users (dict_set (users s) u w) s)).
Proof. intros s Hs. now apply I_register. Qed.

Create HintDb frame.

#[local] Hint Resolve keeps_ret keeps_raise keeps_get keeps_connect keeps_now
  keeps_getitem keeps_write keeps_drain keeps_logger_error keeps_fetch
  keeps_register : frame.

Ltac statement_frame :=
  let H := fresh "Hst" in
  intros ? ? H;
  try match type of H with
      | (if ?b then _ else _) = _ => destruct b; [discriminate|]
      end;
  injection H as <-; repeat split.

Ltac frame :=
  repeat first
    [ apply keeps_bind; [|intros ?]
    | apply keeps_try; [|intros ?]
    | apply keeps_for_each; intros ?
    | apply keeps_execute; statement_frame
    | solve [auto with frame]
    | match goal with
      | |- keeps _ (if ?b then _ else _) => destruct b
      | |- keeps _ (match ?x with _ => _ end) => destruct x
      end ].

Lemma process_data_keeps data writer : keeps I (process_data data writer).
Proof.
  unfold process_data, store_message, get_user, reg_user,
    send_available_messages, send_hello, send_limit_warning, send_to_all,
    send_to_one, append_count_message, __create_record_in_db, __get_user,
    __create_user_db_record, __get_available_messages,
    __append_count_message.
  frame.
Qed.

Lemma run_requests_keeps requests s : I s -> I (run_requests requests s).
Proof.
  revert s. induction requests as [|rq requests IH]; intros s Hs; cbn.
  - exact Hs.
  - apply IH. now apply process_data_keeps.
Qed.

End Frame.

(** No request closes a handle. *)
Lemma process_data_closes_nothing data writer s :
  closed (snd (process_data data writer s)) = closed s.
Proof.
  apply (process_data_keeps (fun s' => closed s' = closed s)).
  - intros s1 s2 _ Hc _ H. congruence.
  - intros s1 u w H. exact H.
  - reflexivity.
Qed.

Lemma dict_set_keys d k v x :
  In x (keys (dict_set d k v)) -> x = k \/ In x (keys d).
Proof.
  induction d as [|[k' v'] d IH]; cbn.
  - intuition congruence.
  - destruct (String.eqb k' k) eqn:E; cbn.
    + apply String.eqb_eq in E. subst. intuition congruence.
    + intros [<- | H]; [tauto|]. destruct (IH H); tauto.
Qed.

Lemma dict_set_wf d k v : dict_wf d -> dict_wf (dict_set d k v).
Proof.
  unfold dict_wf. induction d as [|[k' v'] d IH]; intros Hwf; cbn.
  - repeat constructor. tauto.
  - cbn in Hwf. inversion Hwf as [|? ? Hnotin Hwf']; subst.
    destruct (String.eqb k' k) eqn:E; cbn.
    + apply String.eqb_eq in E. subst. now constructor.
    + constructor; [|now apply IH].
      intros Hin. apply dict_set_keys in Hin. destruct Hin as [-> | Hin].
      * now rewrite String.eqb_refl in E.
      * contradiction.
Qed.

(** The registry of a server that started empty holds every username
    once, whatever requests it has served: the premise of the one-to-one
    properties holds in every state the server reaches. *)
Lemma registry_wf_invariant requests :
  dict_wf (users (run_requests requests init_state)).
Proof.
  apply (run_requests_keeps (fun s => dict_wf (users s))).
  - intros s s' Hu _ _ H. now rewrite Hu.
  - intros s u w H. cbn. now apply dict_set_wf.
  - constructor.
Qed.

(** ** The connection loop *)

Lemma process_data_undecodable data writer s e :
  json_loads data = inl e -> process_data data writer s = (Raise e, s).
Proof. intros H. unfold process_data. rewrite H. reflexivity. Qed.

(** The loop never leaves through its [break]: the empty read that would
    take it is handed to [process_data] first, and does not decode. *)
Lemma serve_never_returns reader writer :
  json_loads empty_str = inl JSONDecodeError ->
  forall s, fst (serve reader writer s) <> Ok tt
            /\ closed (snd (serve reader writer s)) = closed s.
Proof.
  intros Hempty. induction reader as [|data reader IH]; intros s.
  - cbn. split; [discriminate | reflexivity].
  - cbn [serve]. unfold bind.
    pose proof (process_data_closes_nothing data writer s) as Hkc.
    destruct (process_data data writer s) as [[[]| e |] s1] eqn:Hp;
      cbn [fst snd] in *; try (split; [discriminate | exact Hkc]).
    destruct (String.eqb data empty_str) eqn:E.
    + apply String.eqb_eq in E. subst data.
      rewrite (process_data_undecodable _ writer s _ Hempty) in Hp.
      discriminate.
    + destruct (IH s1) as [Hne Hcl]. split; [exact Hne | congruence].
Qed.

(** What the writer of a connection is left with, whatever is read: the
    server never closes it and the coroutine never ends normally. *)
Lemma client_connected_never_closes reader writer s :
  json_loads empty_str = inl JSONDecodeError ->
  fst (client_connected reader writer s) <> Ok tt
  /\ closed (snd (client_connected reader writer s)) = closed s.
Proof.
  intros Hempty. unfold client_connected. unfold bind, logger_info, modify.
  match goal with
  | |- context [serve reader writer ?s0] =>
      destruct (serve_never_returns reader writer Hempty s0) as [Hne Hcl];
      destruct (serve reader writer s0) as [[[]| e |] s1]
  end; cbn [fst snd] in *.
  - now contradiction Hne.
  - split; [discriminate | exact Hcl].
  - split; [discriminate | exact Hcl].
Qed.

(** C8, as the code has it: a read that does not decode, the empty read of
    a closed peer included, makes [process_data] raise before the loop
    looks at what was read, so the coroutine ends with that exception
    after its first log line; 'Stop serving' is not logged and
    [writer.close()] is not run: the handle is not among the closed
    ones. *)
Theorem undecodable_read_skips_close data reader writer s e :
  json_loads data = inl e ->
  client_connected (data :: reader) writer s
  = (Raise e,
     set_log (log s ++ [(INFO, "Start serving " +++ peername writer)]) s)
  /\ closed (snd (client_connected (data :: reader) writer s)) = closed s.
Proof.
  intros H.
  assert (E : client_connected (data :: reader) writer s
              = (Raise e,
                 set_log (log s ++ [(INFO, "Start serving " +++ peername writer)])
                         s)).
  { unfold client_connected.
    unfold bind at 1, logger_info at 1, modify at 1.
    unfold bind at 1. cbn [serve]. unfold bind at 1.
    now rewrite (process_data_undecodable _ _ _ _ H). }
  rewrite E. split; reflexivity.
Qed.

(** ** The backlog query *)

Lemma row_eqb_eq a b : row_eqb a b = true <-> a = b.
Proof.
  destruct a as [[a0 a1] a2], b as [[b0 b1] b2]. unfold row_eqb. cbn.
  rewrite !andb_true_iff, !String.eqb_eq, Z.eqb_eq.
  split; [intros [[-> ->] ->]; reflexivity | intros [= -> -> ->]; auto].
Qed.

Lemma insert_by_date_in r rs x :
  In x (insert_by_date r rs) <-> x = r \/ In x rs.
Proof.
  induction rs as [|r' rs IH]; cbn; [intuition congruence|].
  destruct (row_date r <=? row_date r')%Z; cbn; [intuition congruence|].
  rewrite IH. intuition congruence.
Qed.

Lemma order_by_send_date_in rs x :
  In x (order_by_send_date rs) <-> In x rs.
Proof.
  induction rs as [|r rs IH]; cbn; [tauto|].
  rewrite insert_by_date_in, IH. intuition congruence.
Qed.

Lemma distinct_in rs x : In x (distinct rs) <-> In x rs.
Proof.
  induction rs as [|r rs IH]; cbn; [tauto|].
  rewrite filter_In, IH, negb_true_iff.
  destruct (row_eqb x r) eqn:E.
  - apply row_eqb_eq in E. subst. intuition congruence.
  - assert (x <> r) by (intros ->; now rewrite (proj2 (row_eqb_eq r r)) in E).
    intuition congruence.
Qed.

Lemma limit_in k rs x : In x (limit k rs) -> In x rs.
Proof.
  unfold limit. destruct (k <? 0)%Z; [auto|].
  intros H. rewrite <- (firstn_skipn (Z.to_nat k) rs).
  apply in_or_app. now left.
Qed.

Lemma backlog_before_is_limited k u since table x :
  In x (get_message_query k u since table) ->
  (row_date x < since)%Z ->
  In x (limit k
          (order_by_send_date
             (map row_of
                (filter (fun m => addressed_to u m
                                  && (m_send_date m <=? since)%Z) table)))).
Proof.
  unfold get_message_query, union. intros Hx Hlt.
  apply order_by_send_date_in, distinct_in, in_app_or in Hx.
  destruct Hx as [Hx | Hx]; [|exact Hx].
  apply order_by_send_date_in, in_map_iff in Hx.
  destruct Hx as (m & <- & Hm). apply filter_In in Hm.
  destruct Hm as [_ Hq]. apply andb_true_iff in Hq. destruct Hq as [_ Hq].
  apply Z.leb_le in Hq. unfold row_date, row_of in Hlt. cbn in Hlt. lia.
Qed.

Lemma date_le_trans : Relations_1.Transitive date_le.
Proof. intros a b c. unfold date_le. lia. Qed.

(** A row among the first [n] of an ascending list has fewer than [n]
    rows older than itself in the list. *)
Lemma firstn_sorted_older rs n x :
  StronglySorted date_le rs ->
  In x (firstn n rs) ->
  length (filter (fun y => (row_date y <? row_date x)%Z) rs) < n.
Proof.
  intros Hs. revert n. induction Hs as [|a rs Hs IH Hall]; intros n Hin.
  - now rewrite firstn_nil in Hin.
  - destruct n as [|n]; [contradiction|]. cbn in Hin. destruct Hin as [<- | Hin].
    + cbn. rewrite Z.ltb_irrefl.
      assert (E : filter (fun y => (row_date y <? row_date a)%Z) rs = []).
      { clear - Hall. induction Hall as [|y rs Hy _ IH]; [reflexivity|].
        cbn. unfold date_le in Hy.
        destruct (row_date y <? row_date a)%Z eqn:E; [|exact IH].
        apply Z.ltb_lt in E. lia. }
      rewrite E. cbn. lia.
    + specialize (IH n Hin). cbn.
      destruct (row_date a <? row_date x)%Z; cbn; lia.
Qed.

Lemma insert_by_date_count (p : row -> bool) r rs :
  length (filter p (insert_by_date r rs)) = length (filter p (r :: rs)).
Proof.
  induction rs as [|r' rs IH]; [reflexivity|].
  cbn [insert_by_date]. destruct (row_date r <=? row_date r')%Z; [reflexivity|].
  cbn in *. destruct (p r'), (p r); cbn in *; lia.
Qed.

Lemma order_by_send_date_count (p : row -> bool) rs :
  length (filter p (order_by_send_date rs)) = length (filter p rs).
Proof.
  induction rs as [|r rs IH]; [reflexivity|].
  cbn [order_by_send_date fold_right]. rewrite insert_by_date_count.
  cbn. fold (order_by_send_date rs). destruct (p r); cbn; now rewrite IH.
Qed.

Lemma filter_map_count {A B} (f : A -> B) (p : B -> bool) (l : list A) :
  length (filter p (map f l)) = length (filter (fun a => p (f a)) l).
Proof.
  induction l as [|a l IH]; [reflexivity|].
  cbn. destruct (p (f a)); cbn; now rewrite IH.
Qed.

(** What the ascending order under the LIMIT costs: a message sent before
    the registration instant that has LIMIT_SHOW_MESSAGES or more older
    messages in its window is never in the backlog, however recent it
    is. *)
Theorem backlog_drops_recent_context k u since table m :
  In m table ->
  addressed_to u m = true ->
  (m_send_date m < since)%Z ->
  (0 <= k)%Z ->
  Z.to_nat k <= older_context u since (m_send_date m) table ->
  ~ In (row_of m) (get_message_query k u since table).
Proof.
  intros Hin Hq Hlt Hk Hold Hrow.
  apply backlog_before_is_limited in Hrow; [|exact Hlt].
  unfold limit in Hrow.
  destruct (k <? 0)%Z eqn:E; [apply Z.ltb_lt in E; lia|].
  apply firstn_sorted_older in Hrow.
  - rewrite order_by_send_date_count, filter_map_count in Hrow.
    unfold older_context in Hold. cbn [row_date row_of snd] in Hrow. lia.
  - apply Sorted_StronglySorted; [exact date_le_trans|].
    apply order_by_send_date_sorted.
Qed.

(** The parts of the backlog that hold on every table: each row comes
    from a message addressed to 'all' or to the user, the rows ascend by
    send date, every addressed message sent at or after [since] is there,
    and a row sent before [since] is one of the first [k] addressed rows in
    ascending order. *)
Theorem backlog_addressed_sorted_complete_since k u since table :
  let rows := get_message_query k u since table in
  (forall x, In x rows ->
             exists m, In m table /\ addressed_to u m = true /\ x = row_of m)
  /\ Sorted date_le rows
  /\ (forall m, In m table -> addressed_to u m = true ->
                (since <= m_send_date m)%Z -> In (row_of m) rows)
  /\ (forall x, In x rows -> (row_date x < since)%Z ->
                In x (limit k
                        (order_by_send_date
                           (map row_of
                              (filter (fun m => addressed_to u m
                                                && (m_send_date m <=? since)%Z)
                                      table))))).
Proof.
  intros rows. unfold rows, get_message_query, union.
  split; [|split; [|split]].
  - intros x Hx. apply order_by_send_date_in, distinct_in, in_app_or in Hx.
    destruct Hx as [Hx | Hx].
    + apply order_by_send_date_in, in_map_iff in Hx.
      destruct Hx as (m & <- & Hm). apply filter_In in Hm.
      destruct Hm as [Hin Hq]. apply andb_true_iff in Hq.
      exists m. tauto.
    + apply limit_in, order_by_send_date_in, in_map_iff in Hx.
      destruct Hx as (m & <- & Hm). apply filter_In in Hm.
      destruct Hm as [Hin Hq]. apply andb_true_iff in Hq.
      exists m. tauto.
  - apply order_by_send_date_sorted.
  - intros m Hin Hq Hge.
    apply order_by_send_date_in, distinct_in, in_or_app. left.
    apply order_by_send_date_in, in_map, filter_In. split; [exact Hin|].
    rewrite Hq. cbn. now apply Z.leb_le.
  - intros x Hx Hlt. now apply backlog_before_is_limited.
Qed.

(** ** The two maintenance tasks, one round each *)

(** After a round of the reset task on an engine that works every stored
    count is zero, and the users and their registration instants are as
    before. *)
Theorem reset_limits_zeroes_counts s :
  engine s = [] ->
  exists s',
    __reset_limits s = (Ok tt, s')
    /\ map r_username (registrations s') = map r_username (registrations s)
    /\ map r_reg_date (registrations s') = map r_reg_date (registrations s)
    /\ Forall (fun r => r_count_messages r = 0%Z) (registrations s')
    /\ messages s' = messages s.
Proof.
  intros He. unfold __reset_limits, try_except.
  rewrite (bind_ok (connect_works s He)).
  eexists. split; [reflexivity|]. cbn.
  rewrite !map_map. cbn. repeat split.
  apply Forall_forall. intros x Hx. apply in_map_iff in Hx.
  now destruct Hx as (r0 & <- & _).
Qed.

(** After a round of the expiry task on an engine that works the table
    holds the messages that were sent at or after the deadline, the
    instant read at the start of the round minus LIFETIME_MESSAGES
    minutes, and no other. *)
Theorem delete_old_messages_keeps_recent s :
  engine s = [] ->
  let deadline := (clock (ticks s) - minutes LIFETIME_MESSAGES)%Z in
  exists s',
    __delete_old_messages s = (Ok tt, s')
    /\ (forall m, In m (messages s')
                  <-> In m (messages s) /\ (deadline <= m_send_date m)%Z)
    /\ registrations s' = registrations s.
Proof.
  intros He deadline. unfold __delete_old_messages.
  unfold bind at 1, now at 1. unfold try_except.
  rewrite (bind_ok (connect_works (set_ticks _ s) He)).
  eexists. split; [reflexivity|]. cbn. split; [|reflexivity].
  intros m. rewrite filter_In, negb_true_iff, Z.ltb_ge. reflexivity.
Qed.

(** ** Requests that lack a key *)

Lemma bind_raise {A B} {m : M A} {k : A -> M B} {s e s'} :
  m s = (Raise e, s') -> bind m k s = (Raise e, s').
Proof. intros H. unfold bind. now rewrite H. Qed.

Lemma getitem_missing d k s :
  field d k = None -> getitem d k s = (Raise (KeyError k), s).
Proof. intros H. unfold getitem. now rewrite H. Qed.

(** A decoded request that lacks a key the dispatcher reads makes
    [process_data] raise [KeyError] on the first such key, before anything
    is stored, sent or logged. *)
Theorem missing_key_raises_before_any_effect data d writer s k :
  json_loads data = inr d ->
  first_missing d = Some k ->
  process_data data writer s = (Raise (KeyError k), s).
Proof.
  intros Hd Hk. unfold process_data. rewrite Hd.
  rewrite (bind_ok (eq_refl : ret d s = (Ok d, s))).
  unfold first_missing in Hk.
  destruct (field d "target") as [t|] eqn:Ht.
  2:{ injection Hk as <-. now rewrite (bind_raise (getitem_missing _ _ s Ht)). }
  rewrite (bind_ok (getitem_ok _ _ _ s Ht)).
  destruct (field d "username") as [u|] eqn:Hu.
  2:{ injection Hk as <-. now rewrite (bind_raise (getitem_missing _ _ s Hu)). }
  rewrite (bind_ok (getitem_ok _ _ _ s Hu)).
  destruct (String.eqb t "hello"); [discriminate|]. cbn [negb].
  assert (Hstore : store_message d s = (Raise (KeyError k), s)).
  { unfold store_message.
    destruct (field d "message") as [m|] eqn:Hm.
    2:{ injection Hk as <-. now rewrite (bind_raise (getitem_missing _ _ s Hm)). }
    rewrite (bind_ok (getitem_ok _ _ _ s Hm)).
    rewrite (bind_ok (getitem_ok _ _ _ s Hu)).
    destruct (field d "receiver") as [rc|] eqn:Hr; [discriminate|].
    injection Hk as <-. now rewrite (bind_raise (getitem_missing _ _ s Hr)). }
  now rewrite (bind_raise Hstore).
Qed.

(** ** The limit over several requests *)

Lemma stamped_handles ws n line : map fst (stamped ws n line) = ws.
Proof.
  revert n. induction ws as [|w ws IH]; intros n; cbn; [reflexivity|].
  now rewrite IH.
Qed.

Lemma outbox_step w s s' extra :
  sent s' = sent s ++ extra ->
  outbox w s'
  = outbox w s ++ map snd (filter (fun x => Nat.eqb (fst x) w) extra).
Proof. intros H. unfold outbox. now rewrite H, filter_app, map_app. Qed.

Lemma filter_handle_length w (l : list (handle * string)) :
  length (filter (fun x => Nat.eqb (fst x) w) l)
  = count_occ Nat.eq_dec (map fst l) w.
Proof.
  induction l as [|[h x] l IH]; [reflexivity|]. cbn [filter map fst].
  destruct (Nat.eqb h w) eqn:E.
  - apply Nat.eqb_eq in E. subst h.
    rewrite count_occ_cons_eq by reflexivity. cbn [length]. now rewrite IH.
  - apply Nat.eqb_neq in E. now rewrite count_occ_cons_neq by exact E.
Qed.

Lemma count_occ_others writer d w :
  w <> writer ->
  count_occ Nat.eq_dec (others writer d) w = count_occ Nat.eq_dec (values d) w.
Proof.
  intros Hne. unfold others. induction (values d) as [|h l IH]; [reflexivity|].
  cbn [filter]. destruct (Nat.eqb h writer) eqn:E; cbn [negb].
  - apply Nat.eqb_eq in E. subst h.
    rewrite count_occ_cons_neq by congruence. exact IH.
  - destruct (Nat.eq_dec h w) as [->|Hhw].
    + rewrite !count_occ_cons_eq by reflexivity. now rewrite IH.
    + rewrite !count_occ_cons_neq by exact Hhw. exact IH.
Qed.

(** A broadcast makes one write per entry of the registry, not one per
    connection: when no recipient's connection is lost, a connection that
    said hello under several usernames is written the line once for each
    of them, and the sender's connection not at all. *)
Theorem broadcast_copies_follow_the_registry data r writer s row w :
  decodes_to data r ->
  target r = "all" ->
  engine s = [] ->
  find (has_username (username r)) (registrations s) = Some row ->
  (r_count_messages row < LIMIT_MESSAGES)%Z ->
  Forall (live s) (others writer (users s)) ->
  exists s',
    process_data data writer s = (Ok tt, s')
    /\ length (outbox w s')
       = length (outbox w s)
         + (if Nat.eqb w writer then 0
            else count_occ Nat.eq_dec (values (users s)) w).
Proof.
  intros Hdec Hall He Hrow Hlt Hlive.
  destruct (all_step data r writer s row Hdec Hall He Hrow)
    as (s' & Hrun & _ & _ & _ & _ & _ & Hsent).
  assert (E : (LIMIT_MESSAGES <=? r_count_messages row)%Z = false)
    by (apply Z.leb_gt; lia).
  rewrite E in Hrun, Hsent.
  rewrite (ending_live _ _ Hlive) in Hrun.
  rewrite (reached_live _ _ Hlive) in Hsent.
  exists s'. split; [exact Hrun|].
  rewrite (outbox_step w s s' _ Hsent), length_app, length_map.
  f_equal. rewrite filter_handle_length, stamped_handles.
  destruct (Nat.eqb w writer) eqn:Ew.
  - apply Nat.eqb_eq in Ew. subst w.
    apply count_occ_not_In. intros Hin. now apply others_in in Hin.
  - apply Nat.eqb_neq in Ew. now apply count_occ_others.
Qed.



Lemma ending_lost s ws :
  ~ Forall (live s) ws -> exists e, ending s ws = Raise e.
Proof.
  intros Hno. destruct (ending s ws) as [[]| e |] eqn:E.
  - exfalso. now apply Hno, ending_ok_live.
  - now exists e.
  - now apply ending_never_waits in E.
Qed.

(** What a lost connection does to the limit: while a session whose
    connection is lost is among the recipients, every 'all' request of a
    user below the limit ends with the exception of that connection
    before the count is updated.  However many such requests the user
    sends, the stored count stays where it was, each request is stored,
    and the sessions that come after the lost one in the registry are
    written nothing. *)
Theorem lost_connection_stops_the_count data r writer n :
  decodes_to data r ->
  target r = "all" ->
  forall s row,
  engine s = [] ->
  find (has_username (username r)) (registrations s) = Some row ->
  (r_count_messages row < LIMIT_MESSAGES)%Z ->
  ~ Forall (live s) (others writer (users s)) ->
  let s' := run_requests (repeat (data, writer) n) s in
  registrations s' = registrations s
  /\ length (messages s') = length (messages s) + n
  /\ (exists e, fst (process_data data writer s') = Raise e)
  /\ (forall w, ~ In w (reached s (others writer (users s))) ->
                outbox w s' = outbox w s).
Proof.
  intros Hdec Hall. induction n as [|n IH]; intros s row He Hrow Hlt Hno.
  - cbn [repeat run_requests fold_left].
    destruct (all_step data r writer s row Hdec Hall He Hrow)
      as (s1 & Hrun & _).
    assert (E : (LIMIT_MESSAGES <=? r_count_messages row)%Z = false)
      by (apply Z.leb_gt; lia).
    rewrite E in Hrun. rewrite Hrun. cbn [fst].
    split; [reflexivity|]. split; [lia|]. split; [|reflexivity].
    now apply ending_lost.
  - destruct (all_step data r writer s row Hdec Hall He Hrow)
      as (s1 & Hrun & He1 & Hus1 & Hlo1 & Hmsg & Hreg & Hsent).
    assert (E : (LIMIT_MESSAGES <=? r_count_messages row)%Z = false)
      by (apply Z.leb_gt; lia).
    rewrite E in Hreg, Hsent.
    destruct (ending_lost _ _ Hno) as [e Hend]. rewrite Hend in Hreg.
    assert (Hno1 : ~ Forall (live s1) (others writer (users s1))).
    { rewrite Hus1. intros H. apply Hno.
      apply (live_incl s1 s _ _ (eq_sym Hlo1) H). apply incl_refl. }
    rewrite <- Hreg in Hrow.
    cbn [repeat run_requests fold_left fst snd]. rewrite Hrun. cbn [snd].
    fold (run_requests (repeat (data, writer) n) s1).
    destruct (IH s1 row He1 Hrow Hlt Hno1) as (Hr & Hm & Hraise & Hout).
    split; [congruence|]. split.
    + rewrite Hm, Hmsg, length_app. cbn. lia.
    + split; [exact Hraise|]. intros w Hw.
      rewrite Hout
        by (rewrite Hus1, (reached_same _ s s1 Hlo1); exact Hw).
      unfold outbox at 1. rewrite Hsent. apply outbox_untouched.
      intros x Hx Hfst. apply stamped_fst in Hx. apply Hw.
      rewrite <- Hfst. exact Hx.
Qed.

(** After a round of the reset task a user who was at the limit is
    broadcast again: with a positive limit and no recipient's connection
    lost, the next 'all' request goes to the other handles and the stored
    count becomes one. *)
Theorem reset_reopens_the_limit data r writer s row :
  decodes_to data r ->
  target r = "all" ->
  engine s = [] ->
  find (has_username (username r)) (registrations s) = Some row ->
  (0 < LIMIT_MESSAGES)%Z ->
  Forall (live s) (others writer (users s)) ->
  let line := fun t =>
    str_datetime t +++ " " +++ username r +++ ": " +++ message r +++ LF in
  exists s1 s2,
    __reset_limits s = (Ok tt, s1)
    /\ process_data data writer s1 = (Ok tt, s2)
    /\ sent s2
       = sent s ++ stamped (others writer (users s)) (S (ticks s)) line
    /\ find (has_username (username r)) (registrations s2)
       = Some (set_count 1 row).
Proof.
  intros Hdec Hall He Hrow Hpos Hlive line.
  assert (Hreset : __reset_limits s
                   = (Ok tt,
                      set_registrations
                        (map (set_count 0) (registrations s)) s)).
  { unfold __reset_limits, try_except.
    now rewrite (bind_ok (connect_works s He)). }
  assert (Hrow1 : find (has_username (username r))
                       (map (set_count 0) (registrations s))
                  = Some (set_count 0 row)).
  { clear - Hrow. induction (registrations s) as [|x l IH]; [discriminate|].
    cbn in *. unfold has_username at 1. cbn [set_count r_username].
    fold (has_username (username r) x).
    destruct (has_username (username r) x); [now injection Hrow as -> | auto]. }
  destruct (all_step data r writer
              (set_registrations (map (set_count 0) (registrations s)) s)
              (set_count 0 row) Hdec Hall He Hrow1)
    as (s2 & Hrun & _ & _ & _ & _ & Hreg & Hsent).
  cbn [r_count_messages set_count users set_registrations] in Hrun, Hreg, Hsent.
  assert (E : (LIMIT_MESSAGES <=? 0)%Z = false) by (apply Z.leb_gt; lia).
  rewrite E in Hrun, Hreg, Hsent.
  rewrite (ending_same _ s) in Hrun, Hreg by reflexivity.
  rewrite (reached_same _ s) in Hsent by reflexivity.
  rewrite (ending_live _ _ Hlive) in Hrun, Hreg.
  rewrite (reached_live _ _ Hlive) in Hsent.
  exists (set_registrations (map (set_count 0) (registrations s)) s), s2.
  split; [exact Hreset|]. split; [exact Hrun|]. split; [exact Hsent|].
  rewrite Hreg. cbn [registrations set_registrations].
  exact (find_after_update _ (0 + 1)%Z _ _ Hrow1).
Qed.

(** ** Saying hello again *)

Lemma dict_get_set_same d k v : dict_get (dict_set d k v) k = Some v.
Proof.
  unfold dict_get. induction d as [|[k' v'] d IH]; cbn.
  - now rewrite String.eqb_refl.
  - destruct (String.eqb k' k) eqn:E; cbn.
    + now rewrite String.eqb_refl.
    + now rewrite E.
Qed.

Lemma dict_set_in d k v k' w :
  dict_wf d ->
  In (k', w) (dict_set d k v) ->
  (k' = k /\ w = v) \/ (k' <> k /\ In (k', w) d).
Proof.
  unfold dict_wf. induction d as [|[k0 v0] d IH]; cbn; intros Hwf.
  - intros [[= <- <-] | []]. now left.
  - inversion Hwf as [|? ? Hnotin Hwf']; subst.
    destruct (String.eqb k0 k) eqn:E; cbn.
    + apply String.eqb_eq in E. subst k0.
      intros [[= <- <-] | H]; [now left|].
      right. split; [|now right].
      intros ->. apply Hnotin. change k with (fst (k, w)). now apply in_map.
    + apply String.eqb_neq in E.
      intros [[= <- <-] | H]; [right; split; [exact E | now left]|].
      destruct (IH Hwf' H) as [? | [? ?]]; [now left | right; tauto].
Qed.

(** The last hello wins: once a username has said hello on a connection,
    a one-to-one message to that username is written to that connection
    and to no other, whatever handle the username had before; the handle
    it had before stays in the registry only under the other usernames it
    was registered with.  No connection the two requests can write to is
    lost. *)
Theorem last_hello_takes_over data1 r1 w_new data2 r2 w2 s :
  decodes_to data1 r1 ->
  target r1 = "hello" ->
  decodes_to data2 r2 ->
  target r2 = "one_to_one" ->
  receiver r2 = username r1 ->
  dict_wf (users s) ->
  Forall (live s) (w_new :: values (users s)) ->
  exists s1 s2 t,
    process_data data1 w_new s = (Ok tt, s1)
    /\ process_data data2 w2 s1 = (Ok tt, s2)
    /\ sent s2
       = sent s1
         ++ [(w_new,
              str_datetime t +++ " " +++ username r2 +++ ": " +++ message r2
              +++ LF)]
    /\ (forall k w, In (k, w) (users s1) ->
                    (k = username r1 /\ w = w_new)
                    \/ (k <> username r1 /\ In (k, w) (users s))).
Proof.
  intros Hdec1 Hhello Hdec2 Hone Hto Hwf Hlive.
  destruct (hello_live data1 r1 w_new s Hdec1 Hhello Hlive)
    as (s1 & Hrun1 & Hus1).
  assert (Hlo1 : lost s1 = lost s).
  { pose proof (process_data_keeps (fun s' => lost s' = lost s)) as H.
    specialize (H ltac:(intros ? ? _ _ Hl Hp; congruence)
                  ltac:(intros ? ? ? Hp; exact Hp) data1 w_new s eq_refl).
    now rewrite Hrun1 in H. }
  destruct (one_to_one_run data2 r2 w2 s1 Hdec2 Hone)
    as (s2 & n & Hrun2 & _ & _ & Hsent2).
  rewrite Hus1, filter_key_wf, Hto, dict_get_set_same in Hrun2, Hsent2
    by now apply dict_set_wf.
  assert (Hnew : transport_error w_new s1 = None).
  { rewrite (transport_error_same w_new s s1 Hlo1). now inversion Hlive. }
  cbn in Hrun2, Hsent2. rewrite Hnew in Hrun2, Hsent2.
  exists s1, s2, (clock n). split; [exact Hrun1|]. split; [exact Hrun2|].
  split; [exact Hsent2|].
  intros k w Hin. rewrite Hus1 in Hin. now apply dict_set_in in Hin.
Qed.

(** ** A lookup that fails *)

Lemma get_user_refused u s f rest :
  engine s = Some f :: rest ->
  get_user u s = (Ok None, refused "DB error - get user: " f rest s).
Proof.
  intros He. destruct s as [us rs ms se cl lg tk en lo]. cbn in He. subst en.
  unfold get_user, __get_user. now destruct f.
Qed.

(** When the lookup of the user fails on the engine, the dispatcher takes
    the user for a new one: the registration it then tries is refused as a
    duplicate and logged, the count it goes on with is zero, so with a
    positive limit the 'all' request is broadcast whatever the stored count
    was, and the stored count is overwritten with one.  No recipient's
    connection is lost. *)
Theorem failed_lookup_bypasses_the_limit data r writer s row f :
  decodes_to data r ->
  target r = "all" ->
  engine s = [None; Some f] ->
  find (has_username (username r)) (registrations s) = Some row ->
  (0 < LIMIT_MESSAGES)%Z ->
  Forall (live s) (others writer (users s)) ->
  let line := fun t =>
    str_datetime t +++ " " +++ username r +++ ": " +++ message r +++ LF in
  exists s',
    process_data data writer s = (Ok tt, s')
    /\ sent s' = sent s ++ stamped (others writer (users s)) (3 + ticks s) line
    /\ find (has_username (username r)) (registrations s')
       = Some (set_count 1 row)
    /\ log s'
       = log s
         ++ [ (ERROR, "DB error - get user: " +++ fault_text f);
              (ERROR, "DB error - registration: " +++ unique_violation) ].
Proof.
  intros (d & Hd & Hu & Ht & Hr & Hm) Hall He Hrow Hpos Hlive line.
  rewrite Hall in Ht.
  assert (Hex : existsb (has_username (username r)) (registrations s) = true).
  { apply existsb_exists. exists row. now apply find_some in Hrow. }
  assert (Hlim : (LIMIT_MESSAGES <=? 0)%Z = false) by (apply Z.leb_gt; lia).
  unfold process_data. rewrite Hd.
  rewrite (bind_ok (eq_refl : ret d s = (Ok d, s))).
  rewrite (bind_ok (getitem_ok _ _ _ s Ht)).
  rewrite (bind_ok (getitem_ok _ _ _ s Hu)).
  change (String.eqb "all" "hello") with false.
  change (String.eqb "all" "all") with true. cbn [negb].
  destruct s as [us rs ms se cl lg tk en lo].
  cbn in He, Hrow, Hex. subst en.
  erewrite bind_ok.
  2:{ rewrite (store_message_fields d r _ Hu Hr Hm).
      unfold __create_record_in_db, try_except, bind, connect, now, execute.
      cbn. reflexivity. }
  match goal with
  | |- context [bind (get_user ?u) _ ?s0] =>
      rewrite (bind_ok (get_user_refused u s0 f [] eq_refl))
  end.
  unfold refused. cbn [log engine set_engine set_log].
  unfold bind at 1.
  erewrite bind_ok.
  2:{ unfold reg_user, __create_user_db_record, try_except, bind, connect, now,
        execute, logger_error, modify.
      cbn. rewrite Hex. reflexivity. }
  unfold bind at 1, now at 1. unfold ret at 1.
  rewrite Hlim.
  rewrite (bind_ok (getitem_ok _ _ _ _ Hm)).
  unfold bind at 1. rewrite send_to_all_run.
  match goal with
  | |- context [ending ?s0 ?ws] =>
      rewrite (ending_live s0 ws Hlive), (reached_live s0 ws Hlive)
  end.
  rewrite append_count_works by reflexivity.
  eexists. split; [reflexivity|].
  cbn [sent log users registrations ticks set_sent set_ticks set_log
       set_registrations set_messages set_engine].
  split; [|split].
  - reflexivity.
  - exact (find_after_update _ (0 + 1)%Z _ _ Hrow).
  - now rewrite <- app_assoc.
Qed.

(** ** More on the backlog *)

Lemma distinct_nodup rs : NoDup (distinct rs).
Proof.
  induction rs as [|r rs IH]; cbn; constructor.
  - intros Hin. apply filter_In in Hin. destruct Hin as [_ Hne].
    now rewrite (proj2 (row_eqb_eq r r) eq_refl) in Hne.
  - now apply NoDup_filter.
Qed.

Lemma insert_by_date_nodup r rs :
  ~ In r rs -> NoDup rs -> NoDup (insert_by_date r rs).
Proof.
  induction rs as [|r' rs IH]; cbn; intros Hnotin Hnd.
  - repeat constructor. tauto.
  - destruct (row_date r <=? row_date r')%Z.
    + constructor; [exact Hnotin | exact Hnd].
    + inversion Hnd as [|? ? Hr' Hnd']; subst. constructor.
      * rewrite insert_by_date_in. intros [-> | Hin]; tauto.
      * apply IH; tauto.
Qed.

Lemma order_by_send_date_nodup rs : NoDup rs -> NoDup (order_by_send_date rs).
Proof.
  induction rs as [|r rs IH]; cbn; intros Hnd; [constructor|].
  inversion Hnd as [|? ? Hr Hnd']; subst.
  apply insert_by_date_nodup; [|now apply IH].
  now rewrite order_by_send_date_in.
Qed.

Lemma order_by_send_date_length rs :
  length (order_by_send_date rs) = length rs.
Proof.
  pose proof (order_by_send_date_count (fun _ => true) rs) as H.
  now rewrite !filter_true in H.
Qed.

Lemma backlog_has_since k u since table m :
  In m table -> addressed_to u m = true -> (since <= m_send_date m)%Z ->
  In (row_of m) (get_message_query k u since table).
Proof.
  intros Hin Hq Hge. unfold get_message_query, union.
  apply order_by_send_date_in, distinct_in, in_or_app. left.
  apply order_by_send_date_in, in_map, filter_In. split; [exact Hin|].
  rewrite Hq. cbn. now apply Z.leb_le.
Qed.

(** The backlog returns no row twice, although a message sent exactly at
    the registration instant satisfies both halves of the query, and with
    a non-negative LIMIT_SHOW_MESSAGES it holds at most that many rows
    sent before the registration instant. *)
Theorem backlog_window_is_bounded k u since table :
  let rows := get_message_query k u since table in
  NoDup rows
  /\ ((0 <= k)%Z ->
      length (filter (fun x => (row_date x <? since)%Z) rows) <= Z.to_nat k).
Proof.
  intros rows.
  assert (Hnd : NoDup rows).
  { unfold rows, get_message_query, union.
    apply order_by_send_date_nodup, distinct_nodup. }
  split; [exact Hnd|]. intros Hk.
  set (window := order_by_send_date
                   (map row_of
                      (filter (fun m => addressed_to u m
                                        && (m_send_date m <=? since)%Z)
                              table))).
  transitivity (length (firstn (Z.to_nat k) window)).
  - apply NoDup_incl_length; [now apply NoDup_filter|].
    intros x Hx. apply filter_In in Hx. destruct Hx as [Hx Hlt].
    apply Z.ltb_lt in Hlt.
    pose proof (backlog_before_is_limited k u since table x Hx Hlt) as H.
    unfold limit in H.
    destruct (k <? 0)%Z eqn:E; [apply Z.ltb_lt in E; lia | exact H].
  - apply firstn_le_length.
Qed.

(** When LIMIT_SHOW_MESSAGES is negative, or is at least the number of
    messages addressed to the user up to the registration instant, the
    backlog is the whole history: every message addressed to 'all' or to
    the user is in it. *)
Theorem backlog_is_whole_history_when_it_fits k u since table m :
  (k < 0)%Z
  \/ length (filter (fun m => addressed_to u m
                              && (m_send_date m <=? since)%Z) table)
     <= Z.to_nat k ->
  In m table ->
  addressed_to u m = true ->
  In (row_of m) (get_message_query k u since table).
Proof.
  intros Hfits Hin Hq.
  destruct (Z_le_gt_dec since (m_send_date m)) as [Hge | Hlt].
  - now apply backlog_has_since.
  - unfold get_message_query, union.
    apply order_by_send_date_in, distinct_in, in_or_app. right.
    set (window := order_by_send_date _).
    assert (Hw : In (row_of m) window).
    { apply order_by_send_date_in, in_map, filter_In. split; [exact Hin|].
      rewrite Hq. cbn. apply Z.leb_le. lia. }
    unfold limit. destruct (k <? 0)%Z eqn:E; [exact Hw|].
    apply Z.ltb_ge in E. destruct Hfits as [Hneg | Hlen]; [lia|].
    rewrite firstn_all2; [exact Hw|].
    unfold window. now rewrite order_by_send_date_length, length_map.
Qed.

(** ** A one-to-one message without a receiver *)

(** A 'one_to_one' request whose receiver is empty is written to nobody
    (when nobody said hello under the empty name), but it is stored as a
    message to 'all': from then on it is part of the backlog of every
    user whose registration instant is not later than its send date. *)
Theorem unaddressed_private_message_is_public data r writer s v since :
  decodes_to data r ->
  target r = "one_to_one" ->
  receiver r = empty_str ->
  hd None (engine s) = None ->
  ~ In empty_str (keys (users s)) ->
  (since <= clock (ticks s))%Z ->
  exists s',
    process_data data writer s = (Ok tt, s')
    /\ sent s' = sent s
    /\ In (message r, username r, clock (ticks s))
          (get_message_query LIMIT_SHOW_MESSAGES v since (messages s')).
Proof.
  intros Hdec Hone Hempty He Hnobody Hsince.
  destruct (one_to_one_run data r writer s Hdec Hone)
    as (s' & n & Hrun & _ & Hmsg & Hsent).
  rewrite create_record_stores in Hmsg by exact He.
  assert (E : filter (fun kv : string * handle => String.eqb (fst kv) empty_str)
                     (users s) = []).
  { clear - Hnobody. unfold keys in Hnobody.
    induction (users s) as [|[k w] l IH]; [reflexivity|].
    cbn in *. destruct (String.eqb k empty_str) eqn:E.
    - apply String.eqb_eq in E. tauto.
    - apply IH. tauto. }
  rewrite Hempty, E in Hrun, Hsent. cbn in Hrun, Hsent.
  exists s'. split; [exact Hrun|]. split.
  - now rewrite Hsent, app_nil_r.
  - rewrite Hmsg, Hempty.
    apply (backlog_has_since _ v since _
             (mkMessage (message r) (username r) "all" (clock (ticks s)))).
    + apply in_or_app. right. now left.
    + reflexivity.
    + exact Hsince.
Qed.

(** ** What the tables keep

    An invariant of the two tables is kept by every request, whatever the
    bytes and whatever the engine does, when the three statements a
    request can run keep it: the insertion of a message, the insertion of
    a user with the default count under a username that is free, and the
    update of a count to one more than a count [c] below the limit, where
    [c] is zero or the count of a stored row. *)

Section TableFrame.

Variable I : State -> Prop.
Variable C : Z -> Prop.
Hypothesis I_stable : table_stable I.
Hypothesis I_store :
  forall s m, I s -> I (set_messages (messages s ++ [m]) s).
Hypothesis I_insert :
  forall s u t,
    existsb (has_username u) (registrations s) = false ->
    I s ->
    I (set_registrations
         (registrations s ++ [mkRegistration u t count_messages_default]) s).
Hypothesis C_row :
  forall s row, I s -> In row (registrations s) -> C (r_count_messages row).
Hypothesis C_zero : C 0%Z.
Hypothesis I_count :
  forall s u c,
    I s -> C c -> (c < LIMIT_MESSAGES)%Z ->
    I (set_registrations
         (map (fun r => if has_username u r
                        then mkRegistration (r_username r) (r_reg_date r) (c + 1)
                        else r)
              (registrations s)) s).

Lemma keeps_ext {A} (m m' : M A) :
  (forall s, m s = m' s) -> keeps I m' -> keeps I m.
Proof. intros E H s Hs. rewrite E. now apply H. Qed.

Lemma bind_assoc {A B D} (m : M A) (f : A -> M B) (k : B -> M D) s :
  bind (bind m f) k s = bind m (fun a => bind (f a) k) s.
Proof. unfold bind. now destruct (m s) as [[a| e |] s1]. Qed.

Lemma tkeeps_untouched {A} (m : M A) :
  (forall s, registrations (snd (m s)) = registrations s
             /\ messages (snd (m s)) = messages s) ->
  keeps I m.
Proof. intros H s Hs. destruct (H s). now apply (I_stable s). Qed.

Lemma tkeeps_connect : keeps I connect.
Proof.
  apply tkeeps_untouched. intros s. unfold connect.
  now destruct (engine s) as [|[[er|er]|] rest].
Qed.

Lemma tkeeps_now : keeps I now.
Proof. now apply tkeeps_untouched. Qed.

Lemma tkeeps_write w line : keeps I (write w line).
Proof. now apply tkeeps_untouched. Qed.

Lemma tkeeps_logger_error line : keeps I (logger_error line).
Proof. now apply tkeeps_untouched. Qed.

Lemma tkeeps_register u w :
  keeps I (modify (fun s => set_users (dict_set (users s) u w) s)).
Proof. now apply tkeeps_untouched. Qed.

Lemma tkeeps_execute c statement :
  (forall s s', statement s = inr s' -> I s -> I s') ->
  keeps I (execute c statement).
Proof.
  intros H s Hs. unfold execute. destruct c; [assumption|].
  destruct (statement s) eqn:E; [assumption|]. cbn. now apply (H s).
Qed.

Create HintDb tables.

#[local] Hint Resolve keeps_ret keeps_raise keeps_get keeps_fetch
  keeps_getitem keeps_drain tkeeps_connect tkeeps_now tkeeps_write
  tkeeps_logger_error tkeeps_register : tables.

Ltac tframe :=
  repeat match goal with
         | |- keeps _ (bind _ _) => apply keeps_bind; [|intros ?]
         | |- keeps _ (try_except _ _) => apply keeps_try; [|intros ?]
         | |- keeps _ (for_each _ _) => apply keeps_for_each; intros ?
         | |- keeps _ (if ?b then _ else _) => destruct b
         | |- keeps _ (match ?x with _ => _ end) => destruct x
         | |- _ => solve [auto with tables]
         end.

Lemma tkeeps_create_record m u r : keeps I (__create_record_in_db m u r).
Proof.
  unfold __create_record_in_db. tframe.
  apply tkeeps_execute. intros s s' [= <-] Hs. now apply I_store.
Qed.

Lemma tkeeps_create_user u : keeps I (__create_user_db_record u).
Proof.
  unfold __create_user_db_record. tframe.
  apply tkeeps_execute. intros s s' Hst Hs.
  destruct (existsb (has_username u) (registrations s)) eqn:E; [discriminate|].
  injection Hst as <-. now apply I_insert.
Qed.

Lemma tkeeps_append_count u c :
  C c -> (c < LIMIT_MESSAGES)%Z -> keeps I (append_count_message u c).
Proof.
  intros Hc Hlt. unfold append_count_message, __append_count_message. tframe.
  apply tkeeps_execute. intros s s' [= <-] Hs. now apply I_count.
Qed.

Lemma tkeeps_senders :
  (forall w u m, keeps I (send_to_all w u m))
  /\ (forall u m r, keeps I (send_to_one u m r))
  /\ (forall w u, keeps I (send_hello w u))
  /\ (forall w, keeps I (send_limit_warning w))
  /\ (forall u w t, keeps I (send_available_messages u w t)).
Proof.
  unfold send_to_all, send_to_one, send_hello, send_limit_warning,
    send_available_messages, __get_available_messages.
  repeat split; intros; tframe.
Qed.

(** The dispatch, once the count it works with is known to be fine. *)
Lemma tkeeps_dispatch (d : dict) (tg user : string) writer found :
  C (snd found) ->
  keeps I
    (let '(reg_date, count_messages) := found in
     if String.eqb tg "hello" then
       send_available_messages user writer reg_date ;;
       modify (fun s => set_users (dict_set (users s) user writer) s) ;;
       send_hello writer user
     else if String.eqb tg "all" then
       if (LIMIT_MESSAGES <=? count_messages)%Z then
         send_limit_warning writer
       else
         message <- getitem d "message" ;;
         send_to_all writer user message ;;
         append_count_message user count_messages
     else if String.eqb tg "one_to_one" then
       message <- getitem d "message" ;;
       receiver <- getitem d "receiver" ;;
       send_to_one user message receiver
     else ret tt).
Proof.
  destruct found as [reg_date c]. cbn [snd]. intros Hc.
  destruct tkeeps_senders as (Hall & Hone & Hhello & Hwarn & Havail).
  destruct (String.eqb tg "hello").
  - tframe; auto.
  - destruct (String.eqb tg "all").
    + destruct (LIMIT_MESSAGES <=? c)%Z eqn:E; [apply Hwarn|].
      apply Z.leb_gt in E.
      apply keeps_bind; [auto with tables|]. intros m.
      apply keeps_bind; [apply Hall|]. intros _.
      now apply tkeeps_append_count.
    + destruct (String.eqb tg "one_to_one"); tframe; auto.
Qed.

Lemma get_user_row u s :
  exists res s1,
    get_user u s = (Ok res, s1)
    /\ registrations s1 = registrations s /\ messages s1 = messages s
    /\ (forall row, res = Some row -> In row (registrations s)).
Proof.
  unfold get_user, __get_user. storage_run s;
    do 2 eexists; (split; [reflexivity|]); repeat split;
    intros row H; try discriminate.
  - now apply find_some in H.
  - now apply find_some in H.
Qed.

Lemma process_data_keeps_tables data writer :
  keeps I (process_data data writer).
Proof.
  unfold process_data.
  apply keeps_bind; [destruct (json_loads data); auto with tables|].
  intros d. apply keeps_bind; [auto with tables|]. intros tg.
  apply keeps_bind; [auto with tables|]. intros user.
  apply keeps_bind.
  { destruct (negb (String.eqb tg "hello")); [|auto with tables].
    unfold store_message. tframe. apply tkeeps_create_record. }
  intros _ s Hs.
  destruct (get_user_row user s) as (res & s1 & Hget & Hreg & Hmsg & Hrow).
  rewrite (bind_ok Hget).
  assert (Hs1 : I s1) by now apply (I_stable s).
  destruct res as [row|].
  - rewrite (bind_ok (eq_refl : ret _ s1 = (Ok _, s1))).
    apply (tkeeps_dispatch d tg user writer
             (r_reg_date row, r_count_messages row)); [|exact Hs1].
    cbn. apply (C_row s); [exact Hs|]. now apply Hrow.
  - rewrite bind_assoc.
    revert s1 Hs1 Hget Hreg Hmsg. clear Hrow.
    intros s1 Hs1 _ _ _. revert s1 Hs1.
    change (keeps I
              (bind (reg_user user)
                    (fun _ =>
                       bind (reg_date <- now ;; ret (reg_date, 0%Z))
                            (fun found =>
                               let '(reg_date, count_messages) := found in
                               if String.eqb tg "hello" then
                                 send_available_messages user writer reg_date ;;
                                 modify (fun s =>
                                   set_users (dict_set (users s) user writer) s) ;;
                                 send_hello writer user
                               else if String.eqb tg "all" then
                                 if (LIMIT_MESSAGES <=? count_messages)%Z then
                                   send_limit_warning writer
                                 else
                                   message <- getitem d "message" ;;
                                   send_to_all writer user message ;;
                                   append_count_message user count_messages
                               else if String.eqb tg "one_to_one" then
                                 message <- getitem d "message" ;;
                                 receiver <- getitem d "receiver" ;;
                                 send_to_one user message receiver
                               else ret tt)))).
    apply keeps_bind; [apply tkeeps_create_user|]. intros _.
    eapply keeps_ext; [intros s2; apply bind_assoc|].
    apply keeps_bind; [apply tkeeps_now|]. intros t.
    eapply keeps_ext;
      [intros s2; apply (bind_ok (eq_refl : ret (t, 0%Z) s2 = (Ok _, s2)))|].
    now apply (tkeeps_dispatch d tg user writer (t, 0%Z)).
Qed.

Lemma run_requests_keeps_tables requests s :
  I s -> I (run_requests requests s).
Proof.
  revert s. induction requests as [|rq requests IH]; intros s Hs; cbn.
  - exact Hs.
  - apply IH. now apply process_data_keeps_tables.
Qed.

End TableFrame.

(** ** The server as a whole *)

Lemma reset_limits_any s :
  fst (__reset_limits s) = Ok tt
  /\ same_io s (snd (__reset_limits s))
  /\ messages (snd (__reset_limits s)) = messages s
  /\ (registrations (snd (__reset_limits s)) = registrations s
      \/ registrations (snd (__reset_limits s))
         = map (set_count 0) (registrations s)).
Proof.
  unfold __reset_limits. storage_run s; repeat split; auto.
Qed.

Lemma delete_old_any s :
  fst (__delete_old_messages s) = Ok tt
  /\ same_io s (snd (__delete_old_messages s))
  /\ registrations (snd (__delete_old_messages s)) = registrations s
  /\ incl (messages (snd (__delete_old_messages s))) (messages s).
Proof.
  unfold __delete_old_messages. storage_run s; repeat split;
    try apply incl_refl; intros m Hm; now apply filter_In in Hm.
Qed.

Lemma run_events_ind (I : State -> Prop) :
  (forall data writer s, I s -> I (snd (process_data data writer s))) ->
  (forall s, I s -> I (snd (__delete_old_messages s))) ->
  (forall s, I s -> I (snd (__reset_limits s))) ->
  (forall w e s, I s -> I (set_lost (lost s ++ [(w, e)]) s)) ->
  forall events s, I s -> I (run_events events s).
Proof.
  intros Hreq Hexp Hres Hlost events.
  induction events as [|e events IH]; intros s Hs; [exact Hs|].
  cbn [run_events fold_left]. apply IH. destruct e; cbn [step]; auto.
Qed.

(** Whatever requests arrive, in whatever order the maintenance rounds
    and the losses of connections fall between them and whatever the
    storage engine does, every stored count stays between zero and
    LIMIT_MESSAGES (zero when the limit is negative). *)
Theorem counts_stay_within_the_limit events s :
  counts_bounded s -> counts_bounded (run_events events s).
Proof.
  apply run_events_ind.
  - intros data writer.
    apply (process_data_keeps_tables counts_bounded (fun c => (0 <= c)%Z)).
    + intros s1 s2 Hr _ H. unfold counts_bounded. now rewrite Hr.
    + intros s1 m H. exact H.
    + intros s1 u t _ H. unfold counts_bounded in *. cbn.
      apply Forall_app. split; [exact H|]. constructor; [|constructor].
      cbn. unfold count_messages_default. lia.
    + intros s1 row H Hin. unfold counts_bounded in H.
      rewrite Forall_forall in H. now apply H.
    + lia.
    + intros s1 u c H Hc Hlt. unfold counts_bounded in *. cbn.
      apply Forall_forall. intros x Hx. apply in_map_iff in Hx.
      destruct Hx as (r0 & <- & Hin). rewrite Forall_forall in H.
      destruct (has_username u r0); [cbn; lia | now apply H].
  - intros s1 H. destruct (delete_old_any s1) as (_ & _ & Hr & _).
    unfold counts_bounded. now rewrite Hr.
  - intros s1 H. destruct (reset_limits_any s1) as (_ & _ & _ & [Hr | Hr]);
      unfold counts_bounded; rewrite Hr; [exact H|].
    apply Forall_forall. intros x Hx. apply in_map_iff in Hx.
    destruct Hx as (r0 & <- & _). cbn. lia.
  - intros w e s1 H. exact H.
Qed.

(** No request and no maintenance round removes a row of the
    registrations or changes its username or its registration instant:
    the rows of before are the first rows of after, each with the identity
    it had, whatever the engine does. *)
Theorem registrations_are_kept events s :
  exists added,
    map identity (registrations (run_events events s))
    = map identity (registrations s) ++ added.
Proof.
  set (I := fun s' => exists added,
                map identity (registrations s')
                = map identity (registrations s) ++ added).
  apply (run_events_ind I); unfold I.
  - intros data writer.
    apply (process_data_keeps_tables I (fun _ => True)); unfold I; auto.
    + intros s1 s2 Hr _ H. now rewrite Hr.
    + intros s1 u t _ [added H]. exists (added ++ [(u, t)]). cbn.
      now rewrite map_app, H, app_assoc.
    + intros s1 u c [added H] _ _. exists added. cbn. rewrite <- H.
      rewrite map_map. apply map_ext. intros r0.
      now destruct (has_username u r0).
  - intros s1 H. destruct (delete_old_any s1) as (_ & _ & Hr & _).
    now rewrite Hr.
  - intros s1 [added H].
    destruct (reset_limits_any s1) as (_ & _ & _ & [Hr | Hr]); rewrite Hr.
    + now exists added.
    + exists added. rewrite <- H, map_map. now apply map_ext.
  - intros w e s1 H. exact H.
  - exists []. now rewrite app_nil_r.
Qed.

(** A request only adds to the table of messages: the messages of before
    are the first messages of after, unchanged, whatever the bytes and
    whatever the engine does; only the expiry task takes messages away. *)
Theorem requests_only_add_messages requests s :
  exists added,
    messages (run_requests requests s) = messages s ++ added.
Proof.
  apply (run_requests_keeps_tables
           (fun s' => exists added, messages s' = messages s ++ added)
           (fun _ => True)); auto.
  - intros s1 s2 _ Hm H. now rewrite Hm.
  - intros s1 m [added H]. exists (added ++ [m]). cbn.
    now rewrite H, app_assoc.
  - exists []. now rewrite app_nil_r.
Qed.

Lemma dict_set_keeps_keys d k v x : In x (keys d) -> In x (keys (dict_set d k v)).
Proof.
  induction d as [|[k' v'] d IH]; cbn; [tauto|].
  destruct (String.eqb k' k) eqn:E; cbn.
  - apply String.eqb_eq in E. subst. tauto.
  - intros [-> | H]; [now left | right; now apply IH].
Qed.

(** Nothing ends a session: no request, no maintenance round and no loss
    of a connection closes a handle or takes a username out of the
    registry, so a session whose peer is gone stays registered and stays a
    recipient of the later broadcasts; and the registry keeps holding each
    username once. *)
Theorem sessions_are_never_removed events s :
  closed (run_events events s) = closed s
  /\ incl (keys (users s)) (keys (users (run_events events s)))
  /\ (dict_wf (users s) -> dict_wf (users (run_events events s))).
Proof.
  assert (Hio : forall (I : State -> Prop),
             io_stable I ->
             (forall s1 u w, I s1 -> I (set_users (dict_set (users s1) u w) s1)) ->
             (forall w e s1, I s1 -> I (set_lost (lost s1 ++ [(w, e)]) s1)) ->
             I s -> I (run_events events s)).
  { intros I Hst Hreg Hlost. apply run_events_ind.
    - intros data writer s1. now apply process_data_keeps.
    - intros s1 H.
      destruct (delete_old_any s1) as (_ & (Hu & _ & Hc & Hl) & _).
      now apply (Hst s1).
    - intros s1 H.
      destruct (reset_limits_any s1) as (_ & (Hu & _ & Hc & Hl) & _).
      now apply (Hst s1).
    - intros w e s1 H. exact (Hlost w e s1 H). }
  split; [|split].
  - apply (Hio (fun s' => closed s' = closed s)); [| | |reflexivity].
    + intros s1 s2 _ Hc _ H. congruence.
    + intros s1 u w H. exact H.
    + intros w e s1 H. exact H.
  - apply (Hio (fun s' => incl (keys (users s)) (keys (users s'))));
      [| | |apply incl_refl].
    + intros s1 s2 Hu _ _ H. now rewrite Hu.
    + intros s1 u w H x Hx. cbn. now apply dict_set_keeps_keys, H.
    + intros w e s1 H. exact H.
  - apply (Hio (fun s' => dict_wf (users s'))).
    + intros s1 s2 Hu _ _ H. now rewrite Hu.
    + intros s1 u w H. cbn. now apply dict_set_wf.
    + intros w e s1 H. exact H.
Qed.

(** The two maintenance tasks never end, not even by an exception of the
    storage engine: after any number of rounds each is still in its loop,
    and what it has done is that many rounds. *)
Theorem maintenance_tasks_never_end period n s :
  delete_old_messages n s = (Await, run_events (repeat ExpiryRound n) s)
  /\ reset_limit_messages period n s
     = (Await, run_events (repeat ResetRound n) s).
Proof.
  split; revert s; induction n as [|n IH]; intros s; try reflexivity.
  - cbn [delete_old_messages repeat run_events fold_left step].
    unfold bind at 1.
    destruct (delete_old_any s) as (Hok & _).
    destruct (__delete_old_messages s) as [res s1]. cbn [fst snd] in *.
    subst res. unfold bind at 1, sleep at 1, ret at 1.
    apply IH.
  - cbn [reset_limit_messages repeat run_events fold_left step].
    unfold bind at 1.
    destruct (reset_limits_any s) as (Hok & _).
    destruct (__reset_limits s) as [res s1]. cbn [fst snd] in *.
    subst res. unfold bind at 1, sleep at 1, ret at 1.
    apply IH.
Qed.

(** ** First contact without a hello *)

(** A user needs no session to write to all: an 'all' request of a
    username that has no record and never said hello creates the record,
    is broadcast to every registered handle but the sender's own when the
    limit is positive and no recipient's connection is lost, and leaves
    the record with a count of one; the registry is not touched, so the
    sender gets no broadcast in return. *)
Theorem broadcast_needs_no_hello data r writer s :
  decodes_to data r ->
  target r = "all" ->
  engine s = [] ->
  find (has_username (username r)) (registrations s) = None ->
  (0 < LIMIT_MESSAGES)%Z ->
  Forall (live s) (others writer (users s)) ->
  let line := fun t =>
    str_datetime t +++ " " +++ username r +++ ": " +++ message r +++ LF in
  exists s',
    process_data data writer s = (Ok tt, s')
    /\ users s' = users s
    /\ registrations s'
       = registrations s
         ++ [mkRegistration (username r) (clock (S (ticks s))) 1]
    /\ sent s' = sent s ++ stamped (others writer (users s)) (3 + ticks s) line.
Proof.
  intros (d & Hd & Hu & Ht & Hr & Hm) Hall He Hnone Hpos Hlive line.
  rewrite Hall in Ht.
  assert (Hlim : (LIMIT_MESSAGES <=? 0)%Z = false) by (apply Z.leb_gt; lia).
  unfold process_data. rewrite Hd.
  rewrite (bind_ok (eq_refl : ret d s = (Ok d, s))).
  rewrite (bind_ok (getitem_ok _ _ _ s Ht)).
  rewrite (bind_ok (getitem_ok _ _ _ s Hu)).
  change (String.eqb "all" "hello") with false.
  change (String.eqb "all" "all") with true. cbn [negb].
  rewrite (bind_ok (store_message_works d r s Hu Hr Hm He)).
  rewrite (bind_ok (get_user_works _ (set_messages _ (set_ticks _ s)) He)).
  cbn [registrations set_messages set_ticks]. rewrite Hnone.
  unfold bind at 1. unfold bind at 1.
  rewrite (reg_user_works _ (set_messages _ (set_ticks _ s)) He Hnone).
  unfold bind at 1, now at 1. unfold ret at 1.
  rewrite Hlim.
  rewrite (bind_ok (getitem_ok _ _ _ _ Hm)).
  unfold bind at 1. rewrite send_to_all_run.
  match goal with
  | |- context [ending ?s0 ?ws] =>
      rewrite (ending_live s0 ws Hlive), (reached_live s0 ws Hlive)
  end.
  rewrite append_count_works by exact He.
  eexists. split; [reflexivity|].
  cbn [sent users registrations ticks set_sent set_ticks set_registrations
       set_messages].
  split; [reflexivity|]. split; [|reflexivity].
  rewrite map_app. cbn [map]. unfold has_username at 2. cbn [r_username].
  rewrite String.eqb_refl. f_equal.
  clear - Hnone. induction (registrations s) as [|x l IH]; [reflexivity|].
  cbn in *. destruct (has_username (username r) x); [discriminate|].
  now rewrite IH.
Qed.

End Properties.

(** * The theorems on the sample chat *)

Lemma sample_decodes (r : RequestData) :
  Sample.loads (Sample.to_string_json r) = inr (to_json r) ->
  decodes_to (env := Sample.env) (Sample.to_string_json r) r.
Proof. intros H. exists (to_json r). repeat split. exact H. Defined.

(** No connection of the sample chat is lost. *)
Lemma sample_chat_live (ws : list handle) : Forall (live Sample.chat) ws.
Proof. apply Forall_forall. intros w _. reflexivity. Defined.

(** bob, whose count is at the limit, writes to all: bob's connection gets
    the warning, nobody else gets anything, the counts stay. *)
Lemma limit_reached_only_warns_witness :
  (LIMIT_MESSAGES (Env := Sample.env) <= 2)%Z
  /\ exists s',
      process_data (env := Sample.env)
        (Sample.to_string_json (Sample.all_of "bob" "hi")) Sample.bob_w
        Sample.chat = (Ok tt, s')
      /\ sent s'
         = [(Sample.bob_w,
             "You have reached the limit for sending messages to the general chat"
             +++ LF)]
      /\ registrations s' = registrations Sample.chat.
Proof.
  split; [cbn; lia|].
  destruct (limit_reached_only_warns (env := Sample.env)
              (Sample.to_string_json (Sample.all_of "bob" "hi"))
              (Sample.all_of "bob" "hi") Sample.bob_w Sample.chat
              (mkRegistration "bob" 10%Z 2%Z))
    as (s' & Hrun & Hsent & _ & Hreg & _).
  - apply sample_decodes. reflexivity.
  - reflexivity.
  - reflexivity.
  - reflexivity.
  - cbn. lia.
  - exists s'. split; [exact Hrun|]. split; [exact Hsent | exact Hreg].
Defined.

(** carol, one below the limit, writes to all: alice and bob get the line,
    carol does not, and carol's count becomes two. *)
Lemma below_limit_broadcasts_witness :
  (1 < LIMIT_MESSAGES (Env := Sample.env))%Z
  /\ exists s',
      process_data (env := Sample.env)
        (Sample.to_string_json (Sample.all_of "carol" "hi")) Sample.carol_w
        Sample.chat = (Ok tt, s')
      /\ sent s'
         = [ (Sample.alice_w, "1001 carol: hi" +++ LF);
             (Sample.bob_w, "1002 carol: hi" +++ LF) ]
      /\ outbox Sample.carol_w s' = []
      /\ find (has_username "carol") (registrations s')
         = Some (mkRegistration "carol" 10%Z 2%Z).
Proof.
  split; [cbn; lia|].
  destruct (below_limit_broadcasts (env := Sample.env)
              (Sample.to_string_json (Sample.all_of "carol" "hi"))
              (Sample.all_of "carol" "hi") Sample.carol_w Sample.chat
              (mkRegistration "carol" 10%Z 1%Z))
    as (res & s' & Hrun & _ & Hsent & Hout & _ & Hlive & _).
  - apply sample_decodes. reflexivity.
  - reflexivity.
  - reflexivity.
  - reflexivity.
  - cbn. lia.
  - destruct (Hlive (sample_chat_live _)) as (-> & _ & Hcount).
    exists s'. split; [exact Hrun|]. split; [exact Hsent|].
    split; [exact Hout | exact Hcount].
Defined.

(** C2, as it is stated, on the chat in which alice's connection is lost:
    carol is below the limit and bob is registered on a connection other
    than carol's, but the loop ends at alice's handle, so bob is written
    nothing, the request ends with the exception and carol's count is not
    raised. *)
Lemma stale_session_cuts_the_broadcast :
  (1 < LIMIT_MESSAGES (Env := Sample.env))%Z
  /\ In ("bob", Sample.bob_w) (users Sample.chat_stale)
  /\ Sample.bob_w <> Sample.carol_w
  /\ fst (process_data (env := Sample.env)
            (Sample.to_string_json (Sample.all_of "carol" "hi"))
            Sample.carol_w Sample.chat_stale)
     = Raise ConnectionResetError
  /\ outbox Sample.bob_w
            (snd (process_data (env := Sample.env)
                    (Sample.to_string_json (Sample.all_of "carol" "hi"))
                    Sample.carol_w Sample.chat_stale))
     = []
  /\ find (has_username "carol")
          (registrations
             (snd (process_data (env := Sample.env)
                     (Sample.to_string_json (Sample.all_of "carol" "hi"))
                     Sample.carol_w Sample.chat_stale)))
     = Some (mkRegistration "carol" 10%Z 1%Z).
Proof.
  split; [cbn; lia|]. split; [cbn; tauto|]. split; [discriminate|].
  repeat split.
Qed.

(** dave says hello on a fourth connection: the two oldest rows of the
    table go to dave, dave is registered, and the three others are told. *)
Lemma hello_backlog_register_announce_witness :
  exists backlog s',
    process_data (env := Sample.env)
      (Sample.to_string_json (Sample.hello_of "dave")) Sample.dave_w
      Sample.chat = (Ok tt, s')
    /\ Permutation backlog [("one", "alice", 1%Z); ("two", "alice", 2%Z)]
    /\ sent s'
       = map (fun m => (Sample.dave_w, backlog_line (env := Sample.env) m))
             backlog
         ++ [ (Sample.alice_w, "New guest in the chat! - dave" +++ LF);
              (Sample.bob_w, "New guest in the chat! - dave" +++ LF);
              (Sample.carol_w, "New guest in the chat! - dave" +++ LF) ]
    /\ backlog_line (env := Sample.env) ("one", "alice", 1%Z)
       = "1 alice: one" +++ LF.
Proof.
  destruct (hello_backlog_register_announce (env := Sample.env)
              (Sample.to_string_json (Sample.hello_of "dave"))
              (Sample.hello_of "dave") Sample.dave_w Sample.chat)
    as (backlog & res & s' & Hrun & Hb & _ & _ & Hall).
  - apply sample_decodes. reflexivity.
  - reflexivity.
  - destruct (Hall (or_intror eq_refl) (sample_chat_live _)) as (-> & Hsent).
    exists backlog, s'. split; [exact Hrun|].
    split; [exact (proj1 (Hb eq_refl))|]. split; [exact Hsent | reflexivity].
Defined.

(** C4, as it is stated, on the chat in which alice's connection is lost:
    bob and carol are registered on connections other than dave's, but
    the loop of the announcement ends at alice's handle, so they are not
    told, and the request ends with the exception; dave is registered all
    the same. *)
Lemma stale_session_cuts_the_announcement :
  In ("bob", Sample.bob_w) (users Sample.chat_stale)
  /\ Sample.bob_w <> Sample.dave_w
  /\ fst (process_data (env := Sample.env)
            (Sample.to_string_json (Sample.hello_of "dave")) Sample.dave_w
            Sample.chat_stale)
     = Raise ConnectionResetError
  /\ outbox Sample.bob_w
            (snd (process_data (env := Sample.env)
                    (Sample.to_string_json (Sample.hello_of "dave"))
                    Sample.dave_w Sample.chat_stale))
     = []
  /\ outbox Sample.carol_w
            (snd (process_data (env := Sample.env)
                    (Sample.to_string_json (Sample.hello_of "dave"))
                    Sample.dave_w Sample.chat_stale))
     = []
  /\ users (snd (process_data (env := Sample.env)
                   (Sample.to_string_json (Sample.hello_of "dave"))
                   Sample.dave_w Sample.chat_stale))
     = users Sample.chat ++ [("dave", Sample.dave_w)].
Proof. split; [cbn; tauto|]. split; [discriminate|]. repeat split. Qed.

(** alice writes to carol alone, and to nobody when she names a user who
    is not connected. *)
Lemma one_to_one_reaches_only_receiver_witness :
  dict_wf (users Sample.chat)
  /\ (exists s' t,
        process_data (env := Sample.env)
          (Sample.to_string_json (Sample.one_of "alice" "carol" "psst"))
          Sample.alice_w Sample.chat = (Ok tt, s')
        /\ sent s'
           = [(Sample.carol_w, Sample.show t +++ " alice: psst" +++ LF)])
  /\ (exists s',
        process_data (env := Sample.env)
          (Sample.to_string_json (Sample.one_of "alice" "erin" "psst"))
          Sample.alice_w Sample.chat = (Ok tt, s')
        /\ sent s' = []).
Proof.
  assert (Hwf : dict_wf (users Sample.chat)).
  { unfold dict_wf. cbn. repeat constructor; cbn; intuition discriminate. }
  split; [exact Hwf|]. split.
  - destruct (one_to_one_reaches_only_receiver (env := Sample.env)
                (Sample.to_string_json (Sample.one_of "alice" "carol" "psst"))
                (Sample.one_of "alice" "carol" "psst") Sample.alice_w
                Sample.chat)
      as (res & s' & t & Hrun & _ & Hcase).
    + apply sample_decodes. reflexivity.
    + reflexivity.
    + exact Hwf.
    + change (sent s'
              = sent Sample.chat
                ++ [(Sample.carol_w, Sample.show t +++ " alice: psst" +++ LF)]
              /\ res = Ok tt) in Hcase.
      destruct Hcase as [Hsent ->].
      exists s', t. split; [exact Hrun | exact Hsent].
  - destruct (one_to_one_reaches_only_receiver (env := Sample.env)
                (Sample.to_string_json (Sample.one_of "alice" "erin" "psst"))
                (Sample.one_of "alice" "erin" "psst") Sample.alice_w
                Sample.chat)
      as (res & s' & t & Hrun & _ & Hcase).
    + apply sample_decodes. reflexivity.
    + reflexivity.
    + exact Hwf.
    + change (sent s' = sent Sample.chat /\ res = Ok tt) in Hcase.
      destruct Hcase as [Hsent ->].
      exists s'. split; [exact Hrun | exact Hsent].
Defined.

(** alice writes to herself and reads her own line. *)
Lemma one_to_one_to_self_is_delivered_witness :
  dict_get (users Sample.chat) "alice" = Some Sample.alice_w
  /\ exists s' t,
      process_data (env := Sample.env)
        (Sample.to_string_json (Sample.one_of "alice" "alice" "note"))
        Sample.alice_w Sample.chat = (Ok tt, s')
      /\ outbox Sample.alice_w s'
         = [Sample.show t +++ " alice: note" +++ LF].
Proof.
  split; [reflexivity|].
  destruct (one_to_one_to_self_is_delivered (env := Sample.env)
              (Sample.to_string_json (Sample.one_of "alice" "alice" "note"))
              (Sample.one_of "alice" "alice" "note") Sample.alice_w
              Sample.chat Sample.alice_w)
    as (s' & t & Hrun & _ & Hout).
  - apply sample_decodes. reflexivity.
  - reflexivity.
  - reflexivity.
  - unfold dict_wf. cbn. repeat constructor; cbn; intuition discriminate.
  - reflexivity.
  - exists s', t. split; [exact Hrun | exact Hout].
Defined.

(** alice sends a request of target 'status' with no receiver: it is
    stored, addressed to 'all'. *)
Lemma every_non_hello_request_is_stored_witness :
  exists s',
    process_data (env := Sample.env)
      (Sample.to_string_json (mkRequest "alice" "status" empty_str "ping"))
      Sample.alice_w Sample.chat = (Ok tt, s')
    /\ messages s'
       = Sample.table ++ [mkMessage "ping" "alice" "all" 1000%Z].
Proof.
  destruct (every_non_hello_request_is_stored (env := Sample.env)
              (Sample.to_string_json (mkRequest "alice" "status" empty_str "ping"))
              (mkRequest "alice" "status" empty_str "ping")
              Sample.alice_w Sample.chat)
    as (res & s' & Hrun & Hmsg & Hok).
  - apply sample_decodes. reflexivity.
  - discriminate.
  - reflexivity.
  - rewrite (Hok (sample_chat_live _)) in Hrun.
    exists s'. split; [exact Hrun | exact Hmsg].
Defined.


(** On the engine that is down the lookup of bob logs the error and finds
    nobody, and dave's hello is still served to its end. *)
Lemma storage_failure_is_logged_not_raised_witness :
  engine Sample.chat_down
  = Some Sample.unavailable :: [Some Sample.locked; Some Sample.unavailable]
  /\ get_user "bob" Sample.chat_down
     = (Ok None,
        refused "DB error - get user: " Sample.unavailable
                [Some Sample.locked; Some Sample.unavailable]
                Sample.chat_down)
  /\ exists s',
      process_data (env := Sample.env)
        (Sample.to_string_json (Sample.hello_of "dave")) Sample.dave_w
        Sample.chat_down = (Ok tt, s').
Proof.
  split; [reflexivity|].
  destruct (storage_failure_is_logged_not_raised (env := Sample.env)
              Sample.chat_down Sample.unavailable
              [Some Sample.locked; Some Sample.unavailable] eq_refl)
    as (Hget & _ & _ & _ & _ & _ & _ & Hrun).
  split; [apply Hget|].
  apply (Hrun _ (Sample.hello_of "dave")).
  - apply sample_decodes. reflexivity.
  - apply Forall_forall. intros w _. reflexivity.
Defined.

(** What dave's hello comes to on the engine that is down: no backlog, the
    registration and the announcements as usual, three errors logged. *)
Example hello_on_engine_down :
  process_data (env := Sample.env)
    (Sample.to_string_json (Sample.hello_of "dave")) Sample.dave_w
    Sample.chat_down
  = (Ok tt,
     mkState (users Sample.chat ++ [("dave", Sample.dave_w)])
             (registrations Sample.chat) Sample.table
             [ (Sample.alice_w, "New guest in the chat! - dave" +++ LF);
               (Sample.bob_w, "New guest in the chat! - dave" +++ LF);
               (Sample.carol_w, "New guest in the chat! - dave" +++ LF) ]
             []
             [ (ERROR, "DB error - get user: unable to open database file");
               (ERROR, "DB error - registration: database is locked");
               (ERROR, "DB error - get messages: unable to open database file") ]
             2 [] []).
Proof. reflexivity. Qed.

(** The peer of bob's connection closes at once: the first read is empty,
    the coroutine ends with the decoder's exception and the handle stays
    open. *)
Lemma undecodable_read_skips_close_witness :
  json_loads (Env := Sample.env) empty_str = inl JSONDecodeError
  /\ client_connected (env := Sample.env) [empty_str] Sample.bob_w Sample.chat
     = (Raise JSONDecodeError,
        set_log [(INFO, "Start serving peer2")] Sample.chat)
  /\ closed (snd (client_connected (env := Sample.env) [empty_str]
                                   Sample.bob_w Sample.chat)) = [].
Proof.
  split; [reflexivity|].
  apply (undecodable_read_skips_close (env := Sample.env) empty_str []
           Sample.bob_w Sample.chat JSONDecodeError).
  reflexivity.
Defined.

(** The same for a whole conversation: bob says hello, writes to all, and
    his peer closes; the handle is never closed. *)
Lemma client_connected_never_closes_witness :
  fst (client_connected (env := Sample.env)
         [ Sample.to_string_json (Sample.hello_of "bob");
           Sample.to_string_json (Sample.all_of "bob" "hi");
           empty_str ] Sample.bob_w init_state) <> Ok tt
  /\ closed (snd (client_connected (env := Sample.env)
                    [ Sample.to_string_json (Sample.hello_of "bob");
                      Sample.to_string_json (Sample.all_of "bob" "hi");
                      empty_str ] Sample.bob_w init_state)) = [].
Proof.
  apply (client_connected_never_closes (env := Sample.env)
           [ Sample.to_string_json (Sample.hello_of "bob");
             Sample.to_string_json (Sample.all_of "bob" "hi");
             empty_str ] Sample.bob_w init_state).
  reflexivity.
Defined.

(** C3, as the code has it: with LIMIT_SHOW_MESSAGES = 2 and three
    messages to 'all' sent at 1, 2 and 3, the backlog of bob, registered at
    10, is the rows of 1 and 2: the subquery orders ascending before it
    limits, so it keeps the oldest rows.  The trailing two rows before the
    registration are those of 2 and 3, and the row of 3 is not returned. *)
Theorem backlog_keeps_oldest_not_trailing :
  __get_available_messages (env := Sample.env) "bob" 10%Z Sample.chat
  = (Ok [("one", "alice", 1%Z); ("two", "alice", 2%Z)], Sample.chat)
  /\ spec_trailing 2 "bob" 10%Z (messages Sample.chat)
     = [("two", "alice", 2%Z); ("three", "alice", 3%Z)]
  /\ ~ In ("three", "alice", 3%Z)
          (get_message_query (LIMIT_SHOW_MESSAGES (Env := Sample.env))
                             "bob" 10%Z (messages Sample.chat)).
Proof.
  split; [reflexivity|]. split; [reflexivity|].
  cbn. intros [H | [H | []]]; discriminate.
Qed.

(** One round of each maintenance task on the sample chat. *)
Lemma reset_limits_zeroes_counts_witness :
  exists s',
    __reset_limits Sample.chat = (Ok tt, s')
    /\ Forall (fun r => r_count_messages r = 0%Z) (registrations s').
Proof.
  destruct (reset_limits_zeroes_counts Sample.chat eq_refl)
    as (s' & Hrun & _ & _ & Hzero & _).
  exists s'. split; [exact Hrun | exact Hzero].
Defined.

Lemma delete_old_messages_keeps_recent_witness :
  exists s',
    __delete_old_messages (env := Sample.env) Sample.chat = (Ok tt, s')
    /\ (forall m, In m (messages s')
                  <-> In m Sample.table
                      /\ (1000 - minutes 60 <= m_send_date m)%Z).
Proof.
  destruct (delete_old_messages_keeps_recent (env := Sample.env)
              Sample.chat eq_refl)
    as (s' & Hrun & Hkeep & _).
  exists s'. split; [exact Hrun | exact Hkeep].
Defined.

(** The row of 3 has the rows of 1 and 2 before it, LIMIT_SHOW_MESSAGES is
    2: it is not in bob's backlog. *)
Lemma backlog_drops_recent_context_witness :
  older_context "bob" 10%Z 3%Z Sample.table = 2
  /\ ~ In ("three", "alice", 3%Z)
          (get_message_query 2 "bob" 10%Z Sample.table).
Proof.
  split; [reflexivity|].
  apply (backlog_drops_recent_context 2 "bob" 10%Z Sample.table
           (mkMessage "three" "alice" "all" 3%Z)).
  - cbn. tauto.
  - reflexivity.
  - cbn. lia.
  - lia.
  - cbn. lia.
Defined.

(** The scenario of the spec on a fresh server: alice says hello and gets
    no backlog; bob says hello and alice is told; bob writes 'hi' to all,
    alice gets the line and bob does not. *)
Example scenario_alice_bob :
  let run := process_data (env := Sample.env) in
  let s1 := snd (run (Sample.to_string_json (Sample.hello_of "alice"))
                     Sample.alice_w init_state) in
  let s2 := snd (run (Sample.to_string_json (Sample.hello_of "bob"))
                     Sample.bob_w s1) in
  let s3 := snd (run (Sample.to_string_json (Sample.all_of "bob" "hi"))
                     Sample.bob_w s2) in
  sent s1 = []
  /\ users s1 = [("alice", Sample.alice_w)]
  /\ sent s2 = [(Sample.alice_w, "New guest in the chat! - bob" +++ LF)]
  /\ sent s3 = [ (Sample.alice_w, "New guest in the chat! - bob" +++ LF);
                 (Sample.alice_w, "1005 bob: hi" +++ LF) ]
  /\ outbox Sample.bob_w s3 = []
  /\ map r_count_messages (registrations s3) = [0%Z; 1%Z].
Proof. cbv zeta. repeat split. Qed.

(** * What the client writes, the sample decoder reads *)

Lemma chars_app a b :
  list_ascii_of_string (a +++ b)
  = list_ascii_of_string a ++ list_ascii_of_string b.
Proof. induction a as [|c a IH]; cbn; [reflexivity | now rewrite IH]. Qed.

Lemma snoc_append acc c s : Sample.snoc acc c +++ s = acc +++ String c s.
Proof.
  unfold Sample.snoc. induction acc as [|a acc IH]; cbn; [reflexivity|].
  now rewrite IH.
Qed.

Lemma append_empty s : s +++ EmptyString = s.
Proof. induction s as [|c s IH]; cbn; [reflexivity | now rewrite IH]. Qed.

Lemma plain_char_step c :
  Sample.plain_char c = true ->
  Ascii.eqb c Sample.quote = false
  /\ (Ascii.eqb c Sample.backslash || Sample.is_control c) = false.
Proof.
  unfold Sample.plain_char. rewrite !andb_true_iff, !negb_true_iff.
  intros [[[Hq Hb] Hc] _]. now rewrite Hq, Hb, Hc.
Qed.

Lemma scan_key s : forall acc d rest,
  Sample.plain s = true ->
  fold_left Sample.step (list_ascii_of_string s ++ rest) (Sample.InKey acc, d)
  = fold_left Sample.step rest (Sample.InKey (acc +++ s), d).
Proof.
  induction s as [|c s IH]; intros acc d rest Hp.
  - cbn. now rewrite append_empty.
  - unfold Sample.plain in Hp. cbn in Hp. apply andb_true_iff in Hp.
    destruct Hp as [Hc Hs]. destruct (plain_char_step c Hc) as [Hq Hb].
    cbn [list_ascii_of_string app fold_left Sample.step].
    rewrite Hq, Hb, (IH _ _ _ Hs). now rewrite snoc_append.
Qed.

Lemma scan_value s : forall k acc d rest,
  Sample.plain s = true ->
  fold_left Sample.step (list_ascii_of_string s ++ rest)
            (Sample.InValue k acc, d)
  = fold_left Sample.step rest (Sample.InValue k (acc +++ s), d).
Proof.
  induction s as [|c s IH]; intros k acc d rest Hp.
  - cbn. now rewrite append_empty.
  - unfold Sample.plain in Hp. cbn in Hp. apply andb_true_iff in Hp.
    destruct Hp as [Hc Hs]. destruct (plain_char_step c Hc) as [Hq Hb].
    cbn [list_ascii_of_string app fold_left Sample.step].
    rewrite Hq, Hb, (IH _ _ _ _ Hs). now rewrite snoc_append.
Qed.

(** One member read after the opening brace or after a comma. *)
Lemma scan_member k v d rest p :
  p = Sample.AfterOpen \/ p = Sample.AfterComma ->
  Sample.plain k = true ->
  Sample.plain v = true ->
  fold_left Sample.step
    (list_ascii_of_string (Sample.quoted k) ++ list_ascii_of_string ": "
     ++ list_ascii_of_string (Sample.quoted v) ++ rest) (p, d)
  = fold_left Sample.step rest (Sample.AfterValue, Sample.member_set d k v).
Proof.
  intros Hp Hk Hv. unfold Sample.quoted.
  cbn [append list_ascii_of_string]. rewrite !chars_app.
  cbn [list_ascii_of_string app]. rewrite <- !app_assoc.
  cbn [app fold_left].
  assert (E : Sample.step (p, d) Sample.quote = (Sample.InKey EmptyString, d))
    by (destruct Hp; subst p; reflexivity).
  rewrite E, (scan_key k _ _ _ Hk).
  cbn [app fold_left append].
  change (Sample.step (Sample.InKey k, d) Sample.quote)
    with (Sample.AfterKey k, d).
  change (Sample.step (Sample.AfterKey k, d) ":"%char)
    with (Sample.BeforeValue k, d).
  change (Sample.step (Sample.BeforeValue k, d) " "%char)
    with (Sample.BeforeValue k, d).
  change (Sample.step (Sample.BeforeValue k, d) Sample.quote)
    with (Sample.InValue k EmptyString, d).
  rewrite (scan_value v _ _ _ _ Hv).
  reflexivity.
Qed.

(** For a request whose fields are printable ASCII without quote and
    backslash, so that [json.dumps] escapes nothing, the document
    [to_string_json] writes is read back by the sample decoder as the
    dictionary of [to_json]: the four fields arrive as they were sent. *)
Theorem to_string_json_round_trip r :
  Sample.plain_request r = true ->
  Sample.loads (Sample.to_string_json r) = inr (to_json r).
Proof.
  unfold Sample.plain_request. rewrite !andb_true_iff.
  intros [[[Hu Ht] Hr] Hm].
  unfold Sample.loads, Sample.to_string_json.
  rewrite !chars_app.
  change (list_ascii_of_string "{") with ["{"%char].
  change (list_ascii_of_string ", ") with [","%char; " "%char].
  change (list_ascii_of_string "}") with ["}"%char].
  cbn [app fold_left].
  change (Sample.step (Sample.AtStart, []) "{"%char)
    with (Sample.AfterOpen, @nil (string * string)).
  rewrite scan_member by (auto; reflexivity).
  repeat (cbn [fold_left];
          match goal with
          | |- context [Sample.step (Sample.AfterValue, ?d) ","%char] =>
              change (Sample.step (Sample.AfterValue, d) ","%char)
                with (Sample.AfterComma, d);
              change (Sample.step (Sample.AfterComma, d) " "%char)
                with (Sample.AfterComma, d)
          end;
          rewrite scan_member by (auto; reflexivity)).
  cbn [fold_left].
  match goal with
  | |- context [Sample.step (Sample.AfterValue, ?d) "}"%char] =>
      change (Sample.step (Sample.AfterValue, d) "}"%char)
        with (Sample.AtEnd, d)
  end.
  reflexivity.
Qed.


(** * More of the sample chat *)

(** A document without 'target', and an 'all' request without 'message':
    each ends in the KeyError of the key that is missing, the chat as it
    was. *)
Lemma missing_key_raises_before_any_effect_witness :
  process_data (env := Sample.env) (Sample.one_key "bob") Sample.bob_w
               Sample.chat
  = (Raise (KeyError "target"), Sample.chat)
  /\ process_data (env := Sample.env) (Sample.two_keys "bob" "all")
                  Sample.bob_w Sample.chat
     = (Raise (KeyError "message"), Sample.chat).
Proof.
  split.
  - apply (missing_key_raises_before_any_effect (env := Sample.env)
             (Sample.one_key "bob") [("username", "bob")]);
      reflexivity.
  - apply (missing_key_raises_before_any_effect (env := Sample.env)
             (Sample.two_keys "bob" "all")
             [("username", "bob"); ("target", "all")]);
      reflexivity.
Defined.

(** alice's connection is registered as alice and as ally: a message of
    bob to all is written to it twice, and not to bob's. *)
Lemma broadcast_copies_follow_the_registry_witness :
  exists s',
    process_data (env := Sample.env)
      (Sample.to_string_json (Sample.all_of "bob" "hi")) Sample.bob_w
      Sample.chat_twice = (Ok tt, s')
    /\ length (outbox Sample.alice_w s') = 2.
Proof.
  apply (broadcast_copies_follow_the_registry (env := Sample.env)
           (Sample.to_string_json (Sample.all_of "bob" "hi"))
           (Sample.all_of "bob" "hi") Sample.bob_w Sample.chat_twice
           (mkRegistration "bob" 10%Z 0%Z) Sample.alice_w).
  - apply sample_decodes. reflexivity.
  - reflexivity.
  - reflexivity.
  - reflexivity.
  - cbn. lia.
  - apply Forall_forall. intros w _. reflexivity.
Defined.


(** alice's connection is lost and carol, one below the limit, writes to
    all three times: each request ends with the exception, carol's count
    stays at one, and bob, who comes after alice in the registry, is
    written nothing. *)
Lemma lost_connection_stops_the_count_witness :
  ~ Forall (live Sample.chat_stale)
           (others Sample.carol_w (users Sample.chat_stale))
  /\ registrations
       (run_requests (env := Sample.env)
          (repeat (Sample.to_string_json (Sample.all_of "carol" "hi"),
                   Sample.carol_w) 3) Sample.chat_stale)
     = registrations Sample.chat_stale
  /\ outbox Sample.bob_w
            (run_requests (env := Sample.env)
               (repeat (Sample.to_string_json (Sample.all_of "carol" "hi"),
                        Sample.carol_w) 3) Sample.chat_stale)
     = [].
Proof.
  assert (Hno : ~ Forall (live Sample.chat_stale)
                         (others Sample.carol_w (users Sample.chat_stale))).
  { intros H. inversion H as [|? ? Hl _]. discriminate Hl. }
  split; [exact Hno|].
  destruct (lost_connection_stops_the_count (env := Sample.env)
              (Sample.to_string_json (Sample.all_of "carol" "hi"))
              (Sample.all_of "carol" "hi") Sample.carol_w 3
              (sample_decodes (Sample.all_of "carol" "hi") eq_refl) eq_refl
              Sample.chat_stale (mkRegistration "carol" 10%Z 1%Z))
    as (Hreg & _ & _ & Hout).
  - reflexivity.
  - reflexivity.
  - cbn. lia.
  - exact Hno.
  - split; [exact Hreg|]. apply (Hout Sample.bob_w).
    cbn. intros [H | []]. discriminate H.
Defined.

(** bob is at the limit; after a round of the reset task his next message
    goes to alice and carol. *)
Lemma reset_reopens_the_limit_witness :
  exists s1 s2,
    __reset_limits Sample.chat = (Ok tt, s1)
    /\ process_data (env := Sample.env)
         (Sample.to_string_json (Sample.all_of "bob" "hi")) Sample.bob_w s1
       = (Ok tt, s2)
    /\ sent s2
       = [ (Sample.alice_w, "1001 bob: hi" +++ LF);
           (Sample.carol_w, "1002 bob: hi" +++ LF) ]
    /\ find (has_username "bob") (registrations s2)
       = Some (mkRegistration "bob" 10%Z 1%Z).
Proof.
  apply (reset_reopens_the_limit (env := Sample.env)
           (Sample.to_string_json (Sample.all_of "bob" "hi"))
           (Sample.all_of "bob" "hi") Sample.bob_w Sample.chat
           (mkRegistration "bob" 10%Z 2%Z)).
  - apply sample_decodes. reflexivity.
  - reflexivity.
  - reflexivity.
  - reflexivity.
  - cbn. lia.
  - apply sample_chat_live.
Defined.

(** bob says hello again on dave's connection: alice's next message to
    bob goes there. *)
Lemma last_hello_takes_over_witness :
  exists s1 s2 t,
    process_data (env := Sample.env)
      (Sample.to_string_json (Sample.hello_of "bob")) Sample.dave_w
      Sample.chat = (Ok tt, s1)
    /\ process_data (env := Sample.env)
         (Sample.to_string_json (Sample.one_of "alice" "bob" "psst"))
         Sample.alice_w s1 = (Ok tt, s2)
    /\ sent s2
       = sent s1 ++ [(Sample.dave_w, Sample.show t +++ " alice: psst" +++ LF)].
Proof.
  destruct (last_hello_takes_over (env := Sample.env)
              (Sample.to_string_json (Sample.hello_of "bob"))
              (Sample.hello_of "bob") Sample.dave_w
              (Sample.to_string_json (Sample.one_of "alice" "bob" "psst"))
              (Sample.one_of "alice" "bob" "psst") Sample.alice_w
              Sample.chat)
    as (s1 & s2 & t & H1 & H2 & Hsent & _).
  - apply sample_decodes. reflexivity.
  - reflexivity.
  - apply sample_decodes. reflexivity.
  - reflexivity.
  - reflexivity.
  - unfold dict_wf. cbn. repeat constructor; cbn; intuition discriminate.
  - apply sample_chat_live.
  - exists s1, s2, t. auto.
Defined.

(** bob is at the limit and the lookup of bob fails once: the message is
    broadcast and bob's count is one. *)
Lemma failed_lookup_bypasses_the_limit_witness :
  exists s',
    process_data (env := Sample.env)
      (Sample.to_string_json (Sample.all_of "bob" "hi")) Sample.bob_w
      (set_engine [None; Some Sample.locked] Sample.chat) = (Ok tt, s')
    /\ sent s'
       = [ (Sample.alice_w, "1003 bob: hi" +++ LF);
           (Sample.carol_w, "1004 bob: hi" +++ LF) ]
    /\ find (has_username "bob") (registrations s')
       = Some (mkRegistration "bob" 10%Z 1%Z).
Proof.
  destruct (failed_lookup_bypasses_the_limit (env := Sample.env)
              (Sample.to_string_json (Sample.all_of "bob" "hi"))
              (Sample.all_of "bob" "hi") Sample.bob_w
              (set_engine [None; Some Sample.locked] Sample.chat)
              (mkRegistration "bob" 10%Z 2%Z) Sample.locked)
    as (s' & Hrun & Hsent & Hfind & _).
  - apply sample_decodes. reflexivity.
  - reflexivity.
  - reflexivity.
  - reflexivity.
  - cbn. lia.
  - apply Forall_forall. intros w _. reflexivity.
  - exists s'. split; [exact Hrun|]. split; [exact Hsent | exact Hfind].
Defined.

(** With a limit of five rows the three messages of the table all fit:
    the row of 3 is in bob's backlog. *)
Lemma backlog_is_whole_history_when_it_fits_witness :
  In ("three", "alice", 3%Z) (get_message_query 5 "bob" 10%Z Sample.table).
Proof.
  apply (backlog_is_whole_history_when_it_fits 5 "bob" 10%Z Sample.table
           (mkMessage "three" "alice" "all" 3%Z)).
  - right. cbn. lia.
  - cbn. tauto.
  - reflexivity.
Defined.

(** alice sends a one-to-one message and names no receiver: nobody is
    written to, and the message is in bob's backlog. *)
Lemma unaddressed_private_message_is_public_witness :
  exists s',
    process_data (env := Sample.env)
      (Sample.to_string_json (Sample.one_of "alice" empty_str "oops"))
      Sample.alice_w Sample.chat = (Ok tt, s')
    /\ sent s' = []
    /\ In ("oops", "alice", 1000%Z)
          (get_message_query 2 "bob" 10%Z (messages s')).
Proof.
  apply (unaddressed_private_message_is_public (env := Sample.env)
           (Sample.to_string_json (Sample.one_of "alice" empty_str "oops"))
           (Sample.one_of "alice" empty_str "oops") Sample.alice_w
           Sample.chat "bob" 10%Z).
  - apply sample_decodes. reflexivity.
  - reflexivity.
  - reflexivity.
  - reflexivity.
  - cbn. intuition discriminate.
  - cbn. lia.
Defined.

(** The counts of the sample chat are within the limit, and stay so over
    a request, the loss of a connection, a reset and an expiry. *)
Lemma counts_stay_within_the_limit_witness :
  counts_bounded (env := Sample.env) Sample.chat
  /\ counts_bounded (env := Sample.env)
       (run_events (env := Sample.env)
          [ Request (Sample.to_string_json (Sample.all_of "carol" "hi"))
                    Sample.carol_w;
            ConnectionLost Sample.alice_w ConnectionResetError;
            ResetRound; ExpiryRound ] Sample.chat).
Proof.
  assert (H : counts_bounded (env := Sample.env) Sample.chat).
  { unfold counts_bounded. cbn. repeat constructor; cbn; lia. }
  split; [exact H|].
  now apply (counts_stay_within_the_limit (env := Sample.env)).
Defined.

(** dave never said hello and writes to all. *)
Lemma broadcast_needs_no_hello_witness :
  exists s',
    process_data (env := Sample.env)
      (Sample.to_string_json (Sample.all_of "dave" "hi")) Sample.dave_w
      Sample.chat = (Ok tt, s')
    /\ users s' = users Sample.chat
    /\ registrations s'
       = registrations Sample.chat ++ [mkRegistration "dave" 1001%Z 1%Z]
    /\ sent s'
       = [ (Sample.alice_w, "1003 dave: hi" +++ LF);
           (Sample.bob_w, "1004 dave: hi" +++ LF);
           (Sample.carol_w, "1005 dave: hi" +++ LF) ].
Proof.
  apply (broadcast_needs_no_hello (env := Sample.env)
           (Sample.to_string_json (Sample.all_of "dave" "hi"))
           (Sample.all_of "dave" "hi") Sample.dave_w Sample.chat).
  - apply sample_decodes. reflexivity.
  - reflexivity.
  - reflexivity.
  - reflexivity.
  - cbn. lia.
  - apply sample_chat_live.
Defined.

Lemma to_string_json_round_trip_witness :
  Sample.plain_request (Sample.all_of "bob" "hi there") = true
  /\ Sample.loads (Sample.to_string_json (Sample.all_of "bob" "hi there"))
     = inr (to_json (Sample.all_of "bob" "hi there")).
Proof.
  split; [reflexivity|].
  now apply to_string_json_round_trip.
Defined.
